(** * task6: directory inventory reports

    A shallow embedding of [task6.py]: the file system analyzer
    ([FileSystemAnalyzer]), the six report writers and the orchestrator
    ([ReportGenerator.generate]), together with the POSIX flavour of the
    [os] / [os.path] functions they call.

    Conventions of the embedding.
    - A Python [str] is a list of Unicode code points ([str := list N]), so
      that [len], slicing, [re.sub] and [str.lower] act per character, as
      they do in Python.  Literals are written [u "..."] (UTF-8 decoded).
    - A Python exception is a value of [exn]; code that may raise returns
      [result A].
    - The file system is a finite tree of [node]s.  A system call made on
      [os.path.join(dirpath, name)] is answered by the entry [name] of the
      directory listed at [dirpath], so the calls take the path together
      with the node the path denotes. *)

From Stdlib Require Import String Ascii.
From Stdlib Require Import List NArith ZArith Bool Lia.
Import ListNotations.

(* ================================================================== *)
(** ** Python strings *)

Module Py.

Definition str := list N.

(** UTF-8 decoding of a literal, one code point per character. *)
Fixpoint decode (bs : list N) : str :=
  match bs with
  | [] => []
  | b0 :: r0 =>
      if (b0 <? 128)%N then b0 :: decode r0
      else if (b0 <? 224)%N then
        match r0 with
        | b1 :: r1 => (N.land b0 31 * 64 + N.land b1 63)%N :: decode r1
        | [] => [b0]
        end
      else if (b0 <? 240)%N then
        match r0 with
        | b1 :: b2 :: r2 =>
            (N.land b0 15 * 4096 + N.land b1 63 * 64 + N.land b2 63)%N
              :: decode r2
        | _ => [b0]
        end
      else
        match r0 with
        | b1 :: b2 :: b3 :: r3 =>
            (N.land b0 7 * 262144 + N.land b1 63 * 4096
             + N.land b2 63 * 64 + N.land b3 63)%N :: decode r3
        | _ => [b0]
        end
  end.

Fixpoint bytes_of (s : string) : list N :=
  match s with
  | EmptyString => []
  | String a r => N_of_ascii a :: bytes_of r
  end.

Definition u (s : string) : str := decode (bytes_of s).

Definition str_eqb (a b : str) : bool :=
  if list_eq_dec N.eq_dec a b then true else false.

(** [s.startswith(p)] and [s.endswith(p)]. *)
Fixpoint startswith (s p : str) {struct p} : bool :=
  match p, s with
  | [], _ => true
  | c :: p', d :: s' => (c =? d)%N && startswith s' p'
  | _ :: _, [] => false
  end.

Definition endswith (s p : str) : bool := startswith (rev s) (rev p).

(** [s.rfind(c)] for a one-character needle: the highest index, or -1. *)
Fixpoint rfind_from (c : N) (s : str) (i : Z) : Z :=
  match s with
  | [] => (-1)%Z
  | x :: r =>
      let k := rfind_from c r (i + 1) in
      if (0 <=? k)%Z then k else if (x =? c)%N then i else (-1)%Z
  end.

Definition rfind (c : N) (s : str) : Z := rfind_from c s 0.

(** Slices [s[i:]] and [s[:i]] for an index [i >= 0]. *)
Definition slice_from (i : Z) (s : str) : str := skipn (Z.to_nat i) s.
Definition slice_to (i : Z) (s : str) : str := firstn (Z.to_nat i) s.

(** [sep.join(parts)] *)
Fixpoint str_join (sep : str) (parts : list str) : str :=
  match parts with
  | [] => []
  | [p] => p
  | p :: rest => p ++ sep ++ str_join sep rest
  end.

(** [str(n)] for a non-negative integer. *)
Fixpoint digits_of_uint (d : Decimal.uint) : str :=
  match d with
  | Decimal.Nil => []
  | Decimal.D0 r => 48%N :: digits_of_uint r
  | Decimal.D1 r => 49%N :: digits_of_uint r
  | Decimal.D2 r => 50%N :: digits_of_uint r
  | Decimal.D3 r => 51%N :: digits_of_uint r
  | Decimal.D4 r => 52%N :: digits_of_uint r
  | Decimal.D5 r => 53%N :: digits_of_uint r
  | Decimal.D6 r => 54%N :: digits_of_uint r
  | Decimal.D7 r => 55%N :: digits_of_uint r
  | Decimal.D8 r => 56%N :: digits_of_uint r
  | Decimal.D9 r => 57%N :: digits_of_uint r
  end.

Definition str_of_int (n : N) : str := digits_of_uint (N.to_uint n).

(** Lexicographic order on code points, the order [sorted] uses on [str]. *)
Fixpoint str_leb (a b : str) : bool :=
  match a, b with
  | [], _ => true
  | _ :: _, [] => false
  | x :: a', y :: b' =>
      if (x <? y)%N then true
      else if (y <? x)%N then false
      else str_leb a' b'
  end.

Fixpoint insert_sorted (x : str) (l : list str) : list str :=
  match l with
  | [] => [x]
  | y :: r => if str_leb x y then x :: l else y :: insert_sorted x r
  end.

Definition sorted (l : list str) : list str :=
  fold_right insert_sorted [] l.

(** [s.lower()].  ASCII letters are shifted; the Unicode lower-case mapping
    of a character outside ASCII, which may depend on the characters before
    and after it (final sigma) and may give several characters, is a
    parameter. *)
Definition ascii_lower (c : N) : N :=
  if ((65 <=? c) && (c <=? 90))%N then (c + 32)%N else c.

Section Lower.

Variable unicode_lower : str -> N -> str -> str.

Fixpoint lower_from (before s : str) : str :=
  match s with
  | [] => []
  | c :: after =>
      (if (c <? 128)%N then [ascii_lower c] else unicode_lower before c after)
        ++ lower_from (before ++ [c]) after
  end.

Definition lower (s : str) : str := lower_from [] s.

End Lower.

End Py.

Import Py.

(* ================================================================== *)
(** ** [os.path] (POSIX flavour) *)

Module OsPath.

Definition sep : N := 47.     (* "/" *)
Definition extsep : N := 46.  (* "." *)

(** [os.path.join(a, b)] *)
Definition join (a b : str) : str :=
  if startswith b [sep] then b
  else match a with
       | [] => a ++ b
       | _ => if endswith a [sep] then a ++ b else a ++ [sep] ++ b
       end.

(** [os.path.basename(p)]: [i = p.rfind(sep) + 1; return p[i:]] *)
Definition basename (p : str) : str := slice_from (rfind sep p + 1) p.

(** [os.path.splitext(p)]: the extension starts at the last dot of the last
    path component, leading dots of that component not counting. *)
Definition splitext (p : str) : str * str :=
  let sepIndex := rfind sep p in
  let dotIndex := rfind extsep p in
  if (sepIndex <? dotIndex)%Z then
    let filenameIndex := (sepIndex + 1)%Z in
    let leading := slice_to (dotIndex - filenameIndex)
                            (slice_from filenameIndex p) in
    if existsb (fun c => negb (c =? extsep)%N) leading
    then (slice_to dotIndex p, slice_from dotIndex p)
    else (p, [])
  else (p, []).

End OsPath.

(* ================================================================== *)
(** ** The file system *)

(** What [os.stat] returns, as far as the program reads it. *)
Record stat_result : Type := mk_stat { st_size : N; st_mtime : Z }.

(** A file system entry.  [st = None] is an entry on which [os.stat]
    raises [OSError] (vanished, or not accessible); [listing = None] is a
    directory that [os.scandir] cannot list; a symbolic link carries the
    node it resolves to, [None] when it dangles. *)
#[warnings="-register-all"]
Inductive node : Type :=
| File (st : option stat_result)
| Dir (st : option stat_result) (listing : option (list (str * node)))
| Symlink (target : option node).

(** Follow symbolic links. *)
Fixpoint resolve (n : node) : option node :=
  match n with
  | Symlink None => None
  | Symlink (Some t) => resolve t
  | _ => Some n
  end.

(** Python exceptions raised by the program and the calls it makes. *)
Inductive exn : Type :=
| FileNotFoundError (msg : str)
| ValueError (msg : str)
| OSError.

Inductive result (A : Type) : Type :=
| Ok (a : A)
| Raise (e : exn).
Arguments Ok {A} a.
Arguments Raise {A} e.

Definition bind {A B} (r : result A) (k : A -> result B) : result B :=
  match r with
  | Ok a => k a
  | Raise e => Raise e
  end.

Declare Scope py_scope.
Delimit Scope py_scope with py.
Notation "x <- c ;; k" := (bind c (fun x => k))
  (at level 61, c at next level, right associativity) : py_scope.
Notation "' p <- c ;; k" := (bind c (fun x => let 'p := x in k))
  (at level 61, p pattern, c at next level, right associativity) : py_scope.
Open Scope py_scope.

(** A [for] loop whose body may raise, threading the loop-carried state. *)
Fixpoint for_each {A S : Type} (body : S -> A -> result S)
         (l : list A) (s : S) : result S :=
  match l with
  | [] => Ok s
  | x :: r => s' <- body s x ;; for_each body r s'
  end.

Module Os.

(** [os.stat(path)], links followed. *)
Definition stat (n : node) : result stat_result :=
  match resolve n with
  | Some (File (Some s)) => Ok s
  | Some (Dir (Some s) _) => Ok s
  | _ => Raise OSError
  end.

(** [os.path.exists(path)]: [os.stat] does not raise. *)
Definition path_exists (n : option node) : bool :=
  match n with
  | Some n => match stat n with Ok _ => true | Raise _ => false end
  | None => false
  end.

(** [os.path.islink(path)] *)
Definition islink (n : node) : bool :=
  match n with
  | Symlink _ => true
  | _ => false
  end.

(** [DirEntry.is_dir()], links followed. *)
Definition is_dir (n : node) : bool :=
  match resolve n with
  | Some (Dir _ _) => true
  | _ => false
  end.

(** [os.scandir(path)], links followed; [None] stands for [OSError]. *)
Definition scandir (n : node) : option (list (str * node)) :=
  match resolve n with
  | Some (Dir _ listing) => listing
  | _ => None
  end.

(** One item yielded by [os.walk]: [(dirpath, dirnames, filenames)], each
    path or name paired with the node it denotes. *)
Definition walk_item : Type :=
  ((str * node) * list (str * node) * list (str * node))%type.

(** [os.walk(top, topdown=True, onerror=None, followlinks)] below a node. A
    directory that cannot be listed yields nothing (the error is dropped);
    otherwise the directory is yielded, and then each name of [dirnames],
    in order, is walked when [followlinks or not islink(new_path)]. *)
Fixpoint walk_node (followlinks : bool) (top : str) (n : node)
  : list walk_item :=
  match n with
  | File _ => []
  | Symlink None => []
  | Symlink (Some t) => walk_node followlinks top t
  | Dir _ None => []
  | Dir _ (Some entries) =>
      ((top, n),
       filter (fun e : str * node => is_dir (snd e)) entries,
       filter (fun e : str * node => negb (is_dir (snd e))) entries)
      :: flat_map
           (fun e : str * node =>
              let (dirname, child) := e in
              if is_dir child && (followlinks || negb (islink child))
              then walk_node followlinks (OsPath.join top dirname) child
              else [])
           entries
  end.

Definition walk (followlinks : bool) (top : str) (root : option node)
  : list walk_item :=
  match root with
  | None => []
  | Some n => walk_node followlinks top n
  end.

End Os.

(* ================================================================== *)
(** ** The program *)

(** [elem_type]: the tags ['folder'], ['zip_folder'], ['file']. *)
Inductive elem_type : Type := folder | zip_folder | file.

(** The fourth component of an element: the label ['FOLDER'] or a size. *)
Inductive size_or_type : Type :=
| Label (s : str)
| Size (n : N).

(** An element of the analysis:
    [(elem_type, path, name, size_or_type, mtime)]. *)
Record element : Type := mk_element {
  e_type : elem_type;
  e_path : str;
  e_name : str;
  e_size_or_type : size_or_type;
  e_mtime : str
}.

(** [elem_type in ("folder", "zip_folder")] *)
Definition is_folder_like (t : elem_type) : bool :=
  match t with
  | folder | zip_folder => true
  | file => false
  end.

(** [f"{size_or_type}"] *)
Definition fmt (v : size_or_type) : str :=
  match v with
  | Label s => s
  | Size n => str_of_int n
  end.

Module FileSystemAnalyzer.

Section Analyzer.

(** [datetime.fromtimestamp(t).strftime("%Y-%m-%d %H:%M:%S")]: the local
    time zone is the platform's.  The time stamps of the tree are taken to
    lie in the range that [datetime] accepts; a time stamp outside it, on
    which [fromtimestamp] raises, is not modelled, so that what is proved of
    a result of [analyze] holds of the program and what is proved of its
    exceptions concerns [os.stat] only. *)
Variable strftime : Z -> str.
Variable unicode_lower : str -> N -> str -> str.

Definition get_file_info (file_path : str) (n : node)
  : result (str * N * str) :=
  stat <- Os.stat n ;;
  let size := st_size stat in
  let mtime := strftime (st_mtime stat) in
  Ok (OsPath.basename file_path, size, mtime).

Definition get_folder_info (folder_path : str) (n : node)
  : result (str * str * str) :=
  stat <- Os.stat n ;;
  let mtime := strftime (st_mtime stat) in
  Ok (OsPath.basename folder_path, u "FOLDER", mtime).

(** The body of [for filename in filenames]. *)
Definition analyze_file (dirpath : str) (elements : list element)
           (entry : str * node) : result (list element) :=
  let (filename, n) := entry in
  let file_path := OsPath.join dirpath filename in
  if Os.islink n then Ok elements
  else if endswith (lower unicode_lower filename) (u ".zip") then
    '(name, kind, mtime) <- get_folder_info file_path n ;;
    Ok (elements ++ [mk_element zip_folder file_path name (Label kind) mtime])
  else
    '(name, size, mtime) <- get_file_info file_path n ;;
    Ok (elements ++ [mk_element file file_path name (Size size) mtime]).

(** The body of [for dirpath, dirnames, filenames in os.walk(root_path)]. *)
Definition analyze_dir (elements : list element) (item : Os.walk_item)
  : result (list element) :=
  let '((dirpath, dirnode), dirnames, filenames) := item in
  '(name, kind, mtime) <- get_folder_info dirpath dirnode ;;
  let elements :=
    elements ++ [mk_element folder dirpath name (Label kind) mtime] in
  for_each (analyze_file dirpath) filenames elements.

Definition analyze (root_path : str) (root : option node)
  : result (list element) :=
  let elements := [] in
  for_each analyze_dir (Os.walk false root_path root) elements.

End Analyzer.

End FileSystemAnalyzer.

(* ------------------------------------------------------------------ *)
(** *** Report writers *)

(** The object [json.dump] receives for one element. *)
Record json_object : Type := mk_json {
  j_type : str;
  j_name : str;
  j_size_or_type : size_or_type;
  j_modification_time : str
}.

(** [python-docx]: the blocks added to a [Document()]. *)
Inductive docx_block : Type :=
| Heading (text : str) (level : Z)
| Paragraph (text : str).

(** [fpdf]: the drawing calls made on an [FPDF()]. *)
Inductive pdf_op : Type :=
| AddPage
| SetFont (family style : str) (size : Z)
| Cell (w h : Z) (text align : str)
| Ln (h : Z)
| MultiCell (w h : Z) (text : str).

(** What a writer leaves at [report_path]: the text written to the file, or
    the object handed to the library that serialises it ([json.dump],
    [Document.save], [Workbook.save], [FPDF.output]). *)
Inductive document : Type :=
| TextFile (content : str)
| JsonFile (data : list json_object)
| DocxFile (blocks : list docx_block)
| XlsxFile (title : str) (rows : list (list size_or_type))
| PdfFile (ops : list pdf_op).

Definition nl : str := [10%N].

Module CSVWriter.

Definition row (e : element) : str :=
  let row_type :=
    if is_folder_like (e_type e) then u "Папка" else u "Файл" in
  row_type ++ u "," ++ e_name e ++ u "," ++ fmt (e_size_or_type e)
           ++ u "," ++ e_mtime e ++ nl.

Definition write (elements : list element) : document :=
  let f := u "Тип,Имя,Размер/Тип,Дата изменения" ++ nl in
  TextFile (fold_left (fun f e => f ++ row e) elements f).

End CSVWriter.

Module JSONWriter.

Definition entry (e : element) : json_object :=
  mk_json (if is_folder_like (e_type e) then u "folder" else u "file")
          (e_name e) (e_size_or_type e) (e_mtime e).

Definition write (elements : list element) : document :=
  let data := fold_left (fun data e => data ++ [entry e]) elements [] in
  JsonFile data.

End JSONWriter.

Module TextWriter.

Definition line (e : element) : str :=
  if is_folder_like (e_type e) then
    u "Папка: " ++ e_name e ++ u " | Тип: " ++ fmt (e_size_or_type e)
      ++ u " | Дата изменения: " ++ e_mtime e
  else
    u "Файл: " ++ e_name e ++ u " | Размер: " ++ fmt (e_size_or_type e)
      ++ u " байт | Дата изменения: " ++ e_mtime e.

Definition write (elements : list element) : document :=
  TextFile (fold_left (fun f e => f ++ line e ++ nl) elements []).

End TextWriter.

Module DOCXWriter.

Definition write (elements : list element) : document :=
  let doc := [Heading (u "Отчёт о структуре файлов и папок") 0] in
  DocxFile
    (fold_left (fun doc e => doc ++ [Paragraph (TextWriter.line e)])
               elements doc).

End DOCXWriter.

Module XLSXWriter.

Definition row (e : element) : list size_or_type :=
  let row_type :=
    if is_folder_like (e_type e) then u "Папка" else u "Файл" in
  [Label row_type; Label (e_name e); e_size_or_type e; Label (e_mtime e)].

Definition write (elements : list element) : document :=
  let ws := [[Label (u "Тип"); Label (u "Имя"); Label (u "Размер/Тип");
              Label (u "Дата изменения")]] in
  XlsxFile (u "Отчёт о структуре файлов и папок")
           (fold_left (fun ws e => ws ++ [row e]) elements ws).

End XLSXWriter.

Module PDFWriter.

(** The character class [A-Za-z0-9._\- ()[\]{}]. *)
Definition allowed (c : N) : bool :=
  ((65 <=? c) && (c <=? 90) || (97 <=? c) && (c <=? 122)
   || (48 <=? c) && (c <=? 57)
   || (c =? 46) || (c =? 95) || (c =? 45) || (c =? 32)
   || (c =? 40) || (c =? 41) || (c =? 91) || (c =? 93)
   || (c =? 123) || (c =? 125))%N.

(** [re.sub(r"[^A-Za-z0-9._\- ()[\]{}]", "_", name)] *)
Definition safe_name (name : str) : str :=
  map (fun c => if allowed c then c else 95%N) name.

Definition line (e : element) : str :=
  if is_folder_like (e_type e) then
    u "[DIR]  " ++ safe_name (e_name e) ++ u " | Modified: " ++ e_mtime e
  else
    u "[FILE] " ++ safe_name (e_name e) ++ u " | Size: "
      ++ fmt (e_size_or_type e) ++ u " bytes | Modified: " ++ e_mtime e.

Definition write (elements : list element) : document :=
  let pdf :=
    [AddPage;
     SetFont (u "Helvetica") (u "B") 14;
     Cell 0 10 (u "File Structure Report") (u "C");
     Ln 6;
     SetFont (u "Helvetica") [] 9] in
  let page_width := 190%Z in
  PdfFile
    (fold_left (fun pdf e => pdf ++ [MultiCell page_width 6 (line e); Ln 1])
               elements pdf).

End PDFWriter.

(** The closed set of [ReportWriter] subclasses. *)
Inductive writer : Type :=
| CSV | JSON | Text | DOCX | XLSX | PDF.

Definition writer_write (wr : writer) (elements : list element) : document :=
  match wr with
  | CSV => CSVWriter.write elements
  | JSON => JSONWriter.write elements
  | Text => TextWriter.write elements
  | DOCX => DOCXWriter.write elements
  | XLSX => XLSXWriter.write elements
  | PDF => PDFWriter.write elements
  end.

(* ------------------------------------------------------------------ *)
(** *** The orchestrator *)

(** The steps of [generate] that can be observed from outside. *)
Inductive event : Type :=
| CallAnalyze (root_path : str)
| CallWrite (wr : writer) (report_path : str)
| CallPrint (text : str).

(** The machine state [generate] runs in: the node each path denotes, the
    paths that can be opened for writing, the report files written so far,
    and the trace of steps.  The tree that is read and the reports that are
    written are kept apart: a report written below the analysed directory
    is not seen by a later analysis, and two spellings of one path are two
    keys. *)
Record world : Type := mk_world {
  fs : str -> option node;
  creatable : str -> bool;
  reports : str -> option document;
  trace : list event
}.

Definition log (ev : event) (w : world) : world :=
  mk_world (fs w) (creatable w) (reports w) (trace w ++ [ev]).

(** Creating or overwriting the file at [report_path], in one step.  The
    one failure modelled is that the file cannot be created; an exception
    of an encoder or of a document library while the report is being
    produced, and the partial file it may leave, are not modelled. *)
Definition save (report_path : str) (doc : document) (w : world)
  : result unit * world :=
  if creatable w report_path then
    (Ok tt,
     mk_world (fs w) (creatable w)
              (fun p => if str_eqb p report_path then Some doc
                        else reports w p)
              (trace w))
  else (Raise OSError, w).

Module ReportGenerator.

(** [self.writers], in insertion order. *)
Definition writers : list (str * writer) :=
  [(u ".csv", CSV); (u ".json", JSON); (u ".txt", Text); (u ".log", Text);
   (u ".docx", DOCX); (u ".xlsx", XLSX); (u ".pdf", PDF)].

(** [self.writers.get(ext)] *)
Fixpoint get (d : list (str * writer)) (ext : str) : option writer :=
  match d with
  | [] => None
  | (k, v) :: r => if str_eqb k ext then Some v else get r ext
  end.

Section Generator.

Variable strftime : Z -> str.
Variable unicode_lower : str -> N -> str -> str.

Definition generate (input_path output_path : str) (w : world)
  : result unit * world :=
  if negb (Os.path_exists (fs w input_path)) then
    (Raise (FileNotFoundError (u "Путь не существует: " ++ input_path)), w)
  else
    let ext := lower unicode_lower (snd (OsPath.splitext output_path)) in
    match get writers ext with
    | None =>
        let supported := str_join (u ", ") (sorted (map fst writers)) in
        (Raise (ValueError (u "Неподдерживаемое расширение: " ++ ext
                              ++ u ". Поддерживаются: " ++ supported)), w)
    | Some wr =>
        let w := log (CallAnalyze input_path) w in
        match FileSystemAnalyzer.analyze strftime unicode_lower
                input_path (fs w input_path) with
        | Raise e => (Raise e, w)
        | Ok elements =>
            let w := log (CallWrite wr output_path) w in
            match save output_path (writer_write wr elements) w with
            | (Raise e, w) => (Raise e, w)
            | (Ok _, w) =>
                (Ok tt, log (CallPrint (u "Отчёт сохранён: " ++ output_path)) w)
            end
        end
    end.

End Generator.

End ReportGenerator.

(* ================================================================== *)
(** ** Notions used to state the properties *)

(** A name as a directory listing gives it: not empty, without ["/"]. *)
Definition good_name (nm : str) : bool :=
  match nm with
  | [] => false
  | _ => negb (existsb (N.eqb OsPath.sep) nm)
  end.

Fixpoint nodupb (l : list str) : bool :=
  match l with
  | [] => true
  | x :: r => negb (existsb (str_eqb x) r) && nodupb r
  end.

(** The invariant of a real directory tree: in every listing the names are
    good and pairwise different. *)
Fixpoint well_formed (n : node) : bool :=
  match n with
  | File _ => true
  | Dir _ None => true
  | Dir _ (Some entries) =>
      nodupb (map fst entries)
      && forallb (fun e : str * node =>
                    let (nm, child) := e in good_name nm && well_formed child)
                 entries
  | Symlink None => true
  | Symlink (Some t) => well_formed t
  end.

Definition well_formed_root (root : option node) : bool :=
  match root with
  | None => true
  | Some n => well_formed n
  end.

(** What [os.path.join(top, name)] puts in front of a good [name]. *)
Definition dir_prefix (top : str) : str :=
  match top with
  | [] => []
  | _ => if endswith top [OsPath.sep] then top else top ++ [OsPath.sep]
  end.

(** [p] is the path [top] itself or a path below the directory [top]. *)
Definition under (top p : str) : Prop :=
  p = top \/ exists s, s <> [] /\ p = dir_prefix top ++ s.

(** The tree without its symbolic links: every link is taken out of every
    listing (a link at the root, which is resolved, stays). *)
Fixpoint remove_links (n : node) : node :=
  match n with
  | File st => File st
  | Dir st None => Dir st None
  | Dir st (Some entries) =>
      Dir st (Some (flat_map
                      (fun e : str * node =>
                         let (nm, child) := e in
                         if Os.islink child then []
                         else [(nm, remove_links child)])
                      entries))
  | Symlink None => Symlink None
  | Symlink (Some t) => Symlink (Some (remove_links t))
  end.

(** The folder record of the directory at [dirpath]. *)
Definition folder_record (strftime : Z -> str) (dirpath : str)
           (st : stat_result) : element :=
  mk_element folder dirpath (OsPath.basename dirpath) (Label (u "FOLDER"))
             (strftime (st_mtime st)).

(** In the words of the specification: the name ends in [.zip], whatever the
    case of the three letters. *)
Definition ends_in_zip_any_case (name : str) : bool :=
  match rev name with
  | c3 :: c2 :: c1 :: c0 :: _ =>
      ((c0 =? 46) && ((c1 =? 122) || (c1 =? 90))
       && ((c2 =? 105) || (c2 =? 73)) && ((c3 =? 112) || (c3 =? 80)))%N
  | _ => false
  end.

(** In the words of the specification: the record of a file entry that is
    not a symbolic link. *)
Definition file_record (strftime : Z -> str) (dirpath name : str)
           (st : stat_result) : element :=
  let file_path := OsPath.join dirpath name in
  if ends_in_zip_any_case name
  then mk_element zip_folder file_path name (Label (u "FOLDER"))
                  (strftime (st_mtime st))
  else mk_element file file_path name (Size (st_size st))
                  (strftime (st_mtime st)).

(** In the words of the specification: the supported extensions, and the
    characters a name keeps in a PDF report. *)
Definition supported_extensions : list str :=
  [u ".csv"; u ".json"; u ".txt"; u ".log"; u ".docx"; u ".xlsx"; u ".pdf"].

Definition pdf_charset : str :=
  u "ABCDEFGHIJKLMNOPQRSTUVWXYZabcdefghijklmnopqrstuvwxyz0123456789._- ()[]{}".

(** The elements a loop appends, iteration by iteration: [emit x] is what
    one iteration adds to the list. *)
Fixpoint collect {A : Type} (emit : A -> result (list element))
         (l : list A) : result (list element) :=
  match l with
  | [] => Ok []
  | x :: r => a <- emit x ;; b <- collect emit r ;; Ok (a ++ b)
  end.

(** What [os.walk] does with one entry of [dirnames] ([followlinks] being
    false). *)
Definition walk_child (top : str) (e : str * node) : list Os.walk_item :=
  let (dirname, child) := e in
  if Os.is_dir child && negb (Os.islink child)
  then Os.walk_node false (OsPath.join top dirname) child
  else [].

(** The element the inner loop of [analyze] appends for an entry that is
    not a link. *)
Definition entry_record (strftime : Z -> str)
           (unicode_lower : str -> N -> str -> str)
           (dirpath name : str) (st : stat_result) : element :=
  let file_path := OsPath.join dirpath name in
  if endswith (lower unicode_lower name) (u ".zip")
  then mk_element zip_folder file_path (OsPath.basename file_path)
                  (Label (u "FOLDER")) (strftime (st_mtime st))
  else mk_element file file_path (OsPath.basename file_path)
                  (Size (st_size st)) (strftime (st_mtime st)).

(** [os.stat] and [os.scandir] on the root path, which may name nothing. *)
Definition root_stat (root : option node) : result stat_result :=
  match root with
  | Some n => Os.stat n
  | None => Raise OSError
  end.

Definition root_listing (root : option node) : option (list (str * node)) :=
  match root with
  | Some n => Os.scandir n
  | None => None
  end.

(** What is assumed of the Unicode tables: the lower-case form of a
    character outside ASCII is not empty and does not end with one of the
    ASCII characters [.], [z], [i], [p]. *)
Definition lower_keeps_ascii_apart
           (unicode_lower : str -> N -> str -> str) : Prop :=
  forall before c after,
    (128 <= c)%N ->
    exists l y, unicode_lower before c after = l ++ [y]
                /\ ~ In y [46; 122; 105; 112]%N.

(** The lower-case form [ch] of one character [c] of a string. *)
Definition lowered_char (c : N) (ch : str) : Prop :=
  ((c < 128)%N /\ ch = [ascii_lower c])
  \/ ((128 <= c)%N /\ exists l y, ch = l ++ [y]
                                  /\ ~ In y [46; 122; 105; 112]%N).

(* ------------------------------------------------------------------ *)
(** *** A sample platform and sample trees, for the examples *)

(** A clock that prints the time stamp as a number of seconds, and Unicode
    tables without case pairs outside ASCII. *)
Definition sample_strftime (t : Z) : str := str_of_int (Z.to_N t).

Definition sample_unicode_lower (before : str) (c : N) (after : str) : str :=
  [c].

Definition sample_stat : stat_result := mk_stat 5 1700000000.

(** [sub/] holds an archive; [shortcut.zip] is a link to a file and [loop]
    a link to a directory. *)
Definition sample_sub : node :=
  Dir (Some sample_stat) (Some [(u "archive.ZIP", File (Some sample_stat))]).

Definition sample_tree : node :=
  Dir (Some sample_stat)
      (Some [(u "a.txt", File (Some sample_stat));
             (u "sub", sample_sub);
             (u "shortcut.zip", Symlink (Some (File (Some sample_stat))));
             (u "loop",
              Symlink (Some (Dir (Some sample_stat)
                                 (Some [(u "x", File (Some sample_stat))]))))]).

Definition sample_elements : list element :=
  [mk_element folder (u "root") (u "root") (Label (u "FOLDER"))
              (u "1700000000");
   mk_element file (u "root/a.txt") (u "a.txt") (Size 5) (u "1700000000");
   mk_element folder (u "root/sub") (u "sub") (Label (u "FOLDER"))
              (u "1700000000");
   mk_element zip_folder (u "root/sub/archive.ZIP") (u "archive.ZIP")
              (Label (u "FOLDER")) (u "1700000000")].

(** The record of [a.txt] in [sample_elements]. *)
Definition a_txt_record : element :=
  mk_element file (u "root/a.txt") (u "a.txt") (Size 5) (u "1700000000").

(** A directory with an entry that was listed but can no longer be
    stat'ed. *)
Definition racy_tree : node :=
  Dir (Some sample_stat) (Some [(u "gone.txt", File None)]).

(** A world in which [root] names [sample_tree] and [racy] names
    [racy_tree], nothing else exists, and every report can be written. *)
Definition sample_world : world :=
  mk_world (fun p => if str_eqb p (u "root") then Some sample_tree
                     else if str_eqb p (u "racy") then Some racy_tree
                     else None)
           (fun _ => true) (fun _ => None) [].

(** A world like [sample_world] in which no report can be written, and one
    in which [notes.txt] names a regular file. *)
Definition readonly_world : world :=
  mk_world (fs sample_world) (fun _ => false) (fun _ => None) [].


(** A directory with a sub-directory that cannot be listed. *)
Definition locked_tree : node :=
  Dir (Some sample_stat)
      (Some [(u "locked", Dir (Some sample_stat) None);
             (u "a.txt", File (Some sample_stat))]).

Definition locked_elements : list element :=
  [mk_element folder (u "root") (u "root") (Label (u "FOLDER"))
              (u "1700000000");
   mk_element file (u "root/a.txt") (u "a.txt") (Size 5) (u "1700000000")].

(* ------------------------------------------------------------------ *)
(** *** The command line entry point *)

Section EntryPoint.

Variable strftime : Z -> str.
Variable unicode_lower : str -> N -> str -> str.

(** [str(e)] for an [OSError] raised by a system call: the text is the
    platform's. *)
Variable oserror_text : str.

(** [str(e)]: an exception built from one string prints as that string. *)
Definition exn_str (e : exn) : str :=
  match e with
  | FileNotFoundError msg => msg
  | ValueError msg => msg
  | OSError => oserror_text
  end.

(** [main], given the parsed [args.path] and [args.report]: the exit status
    of the process, the lines printed to [sys.stderr], and the world that
    [generate] leaves. *)
Definition main (args_path args_report : str) (w : world)
  : Z * list str * world :=
  match ReportGenerator.generate strftime unicode_lower
          args_path args_report w with
  | (Ok _, w') => (0%Z, [], w')
  | (Raise e, w') => (1%Z, [u "Ошибка: " ++ exn_str e], w')
  end.

End EntryPoint.

(* ------------------------------------------------------------------ *)
(** *** Further notions used to state properties *)

Definition is_ok {A : Type} (r : result A) : bool :=
  match r with
  | Ok _ => true
  | Raise _ => false
  end.

(** The paths of the records one item of the walk gives: the directory,
    then its file names that are not links, in listing order. *)
Definition item_paths (item : Os.walk_item) : list str :=
  let '((dirpath, _), _, filenames) := item in
  dirpath
    :: map (fun e : str * node => OsPath.join dirpath (fst e))
           (filter (fun e : str * node => negb (Os.islink (snd e)))
                   filenames).

(** The [os.stat] calls one item of the walk leads to all succeed. *)
Definition item_statable (item : Os.walk_item) : bool :=
  let '((_, dirnode), _, filenames) := item in
  is_ok (Os.stat dirnode)
  && forallb (fun e : str * node =>
                Os.islink (snd e) || is_ok (Os.stat (snd e)))
             filenames.

(** Two elements that differ at most in their path and in being a zip
    archive rather than a directory. *)
Definition same_rendering (a b : element) : Prop :=
  is_folder_like (e_type a) = is_folder_like (e_type b)
  /\ e_name a = e_name b
  /\ e_size_or_type a = e_size_or_type b
  /\ e_mtime a = e_mtime b.

(** Induction on a tree, with the hypothesis available for every entry of
    a listing and for the target of a link. *)
Section NodeInduction.

Variable P : node -> Prop.
Hypothesis PFile : forall st, P (File st).
Hypothesis PDirNone : forall st, P (Dir st None).
Hypothesis PDir :
  forall st entries,
    Forall (fun e : str * node => P (snd e)) entries ->
    P (Dir st (Some entries)).
Hypothesis PLinkNone : P (Symlink None).
Hypothesis PLink : forall t, P t -> P (Symlink (Some t)).

Fixpoint node_induction (n : node) : P n :=
  match n with
  | File st => PFile st
  | Dir st None => PDirNone st
  | Dir st (Some entries) =>
      PDir st entries
           ((fix entries_induction (l : list (str * node))
               : Forall (fun e : str * node => P (snd e)) l :=
               match l with
               | [] => Forall_nil _
               | e :: r =>
                   Forall_cons e (node_induction (snd e))
                               (entries_induction r)
               end) entries)
  | Symlink None => PLinkNone
  | Symlink (Some t) => PLink t (node_induction t)
  end.

End NodeInduction.

(* ================================================================== *)
(** ** Facts about strings and paths *)

Lemma str_eqb_eq (a b : str) : str_eqb a b = true <-> a = b.
Proof.
  unfold str_eqb. destruct (list_eq_dec N.eq_dec a b); split; congruence.
Qed.

Lemma str_eqb_refl (a : str) : str_eqb a a = true.
Proof. now apply str_eqb_eq. Qed.

Lemma str_eqb_neq (a b : str) : str_eqb a b = false <-> a <> b.
Proof.
  unfold str_eqb. destruct (list_eq_dec N.eq_dec a b); split; congruence.
Qed.

Lemma startswith_one (s : str) (c : N) :
  startswith s [c] = true <-> exists r, s = c :: r.
Proof.
  destruct s as [|d s]; simpl.
  - split; [discriminate | intros [r H]; discriminate].
  - replace (startswith s []) with true by now destruct s.
    rewrite andb_true_r, N.eqb_eq. split.
    + intros ->. now exists s.
    + intros [r H]. now inversion H.
Qed.

Lemma endswith_snoc (a : str) (c x : N) :
  endswith (a ++ [c]) [x] = (x =? c)%N.
Proof.
  unfold endswith. rewrite rev_app_distr. simpl.
  replace (startswith (rev a) []) with true by now destruct (rev a).
  apply andb_true_r.
Qed.

(** A directory prefix is empty or ends with the separator. *)
Lemma dir_prefix_cases (top : str) :
  dir_prefix top = [] \/ exists a, dir_prefix top = a ++ [OsPath.sep].
Proof.
  destruct top as [|c top] using rev_ind; [now left | right].
  unfold dir_prefix. destruct (top ++ [c]) eqn:E.
  - now destruct top.
  - rewrite <- E. rewrite endswith_snoc.
    destruct (N.eqb_spec OsPath.sep c) as [Heq|_].
    + exists top. now rewrite Heq.
    + now exists (top ++ [c]).
Qed.

(** ... and extends the directory's path by at most the separator. *)
Lemma dir_prefix_extends (top : str) :
  dir_prefix top = top \/ dir_prefix top = top ++ [OsPath.sep].
Proof.
  unfold dir_prefix. destruct top; [now left|].
  destruct (endswith _ _); [now left | now right].
Qed.

Lemma good_name_spec (nm : str) :
  good_name nm = true <-> nm <> [] /\ ~ In OsPath.sep nm.
Proof.
  unfold good_name. destruct nm as [|c nm].
  - split; [discriminate | now intros [H _]].
  - rewrite negb_true_iff. split.
    + intros H. split; [discriminate|]. intros Hin.
      assert (existsb (N.eqb OsPath.sep) (c :: nm) = true) as E.
      { apply existsb_exists. exists OsPath.sep. split; [exact Hin|].
        apply N.eqb_refl. }
      congruence.
    + intros [_ H]. destruct (existsb _ _) eqn:E; [|reflexivity].
      apply existsb_exists in E. destruct E as [x [Hx Ex]].
      apply N.eqb_eq in Ex. subst x. contradiction.
Qed.

(** Joining a directory path and a good name. *)
Lemma join_good (top nm : str) :
  good_name nm = true -> OsPath.join top nm = dir_prefix top ++ nm.
Proof.
  intros H. apply good_name_spec in H. destruct H as [Hne Hsep].
  unfold OsPath.join.
  destruct (startswith nm [OsPath.sep]) eqn:E.
  - apply startswith_one in E. destruct E as [r ->].
    exfalso. apply Hsep. now left.
  - unfold dir_prefix. destruct top; [reflexivity|].
    destruct (endswith _ _); [reflexivity|]. now rewrite <- app_assoc.
Qed.

Lemma dir_prefix_join (top nm : str) :
  good_name nm = true ->
  dir_prefix (OsPath.join top nm) = dir_prefix top ++ nm ++ [OsPath.sep].
Proof.
  intros H. rewrite (join_good top nm H).
  apply good_name_spec in H. destruct H as [Hne Hsep].
  destruct nm as [|c nm] using rev_ind; [congruence|]. clear IHnm.
  unfold dir_prefix at 1.
  destruct (dir_prefix top ++ nm ++ [c]) eqn:E.
  - apply app_eq_nil in E. destruct E as [_ E]. now destruct nm.
  - rewrite <- E. rewrite app_assoc, endswith_snoc.
    destruct (N.eqb_spec OsPath.sep c) as [Heq|_].
    + exfalso. apply Hsep. apply in_or_app. right. now left.
    + now rewrite <- !app_assoc.
Qed.

Lemma under_refl (top : str) : under top top.
Proof. now left. Qed.

Lemma under_trans (a b c : str) : under a b -> under b c -> under a c.
Proof.
  intros [->|[s [Hs ->]]] Hbc; [exact Hbc|].
  destruct Hbc as [->|[s' [Hs' ->]]].
  - right. now exists s.
  - right. destruct (dir_prefix_extends (dir_prefix a ++ s)) as [E|E];
      rewrite E.
    + exists (s ++ s'). split; [now destruct s|]. now rewrite app_assoc.
    + exists (s ++ [OsPath.sep] ++ s'). split; [now destruct s|].
      now rewrite <- !app_assoc.
Qed.

(** The shape of the paths at or below the entry [nm] of [top]. *)
Lemma under_join_shape (top nm p : str) :
  good_name nm = true ->
  under (OsPath.join top nm) p ->
  exists t, p = dir_prefix top ++ nm ++ t
            /\ (t = [] \/ exists s, t = OsPath.sep :: s).
Proof.
  intros H [->|[s [Hs ->]]].
  - exists []. rewrite app_nil_r. split; [now apply join_good | now left].
  - rewrite (dir_prefix_join top nm H). exists (OsPath.sep :: s).
    split; [now rewrite <- !app_assoc | right; now exists s].
Qed.

Lemma under_join_under (top nm p : str) :
  good_name nm = true -> under (OsPath.join top nm) p -> under top p.
Proof.
  intros H Hp. apply under_trans with (b := OsPath.join top nm); [|exact Hp].
  right. exists nm. split; [now apply good_name_spec in H | now apply join_good].
Qed.

Lemma under_join_longer (top nm p : str) :
  good_name nm = true ->
  under (OsPath.join top nm) p -> length top < length p.
Proof.
  intros H Hp. destruct (under_join_shape top nm p H Hp) as [t [-> _]].
  apply good_name_spec in H. destruct H as [Hne _].
  rewrite !length_app.
  assert (0 < length nm) by (destruct nm; [congruence | simpl; lia]).
  destruct (dir_prefix_extends top) as [E|E]; rewrite E;
    rewrite ?length_app; simpl; lia.
Qed.

Lemma under_join_neq (top nm p : str) :
  good_name nm = true -> under (OsPath.join top nm) p -> p <> top.
Proof.
  intros H Hp ->. apply (under_join_longer top nm top H) in Hp. lia.
Qed.

(** A name without separator is determined by what follows it. *)
Lemma name_prefix_unique (a b ta tb : str) :
  ~ In OsPath.sep a -> ~ In OsPath.sep b ->
  (ta = [] \/ exists s, ta = OsPath.sep :: s) ->
  (tb = [] \/ exists s, tb = OsPath.sep :: s) ->
  a ++ ta = b ++ tb -> a = b.
Proof.
  revert b. induction a as [|x a IH]; intros b Ha Hb Hta Htb E.
  - destruct b as [|y b]; [reflexivity|]. simpl in E.
    destruct Hta as [->|[s ->]]; [discriminate|].
    inversion E. subst y. exfalso. apply Hb. now left.
  - destruct b as [|y b]; simpl in E.
    + destruct Htb as [->|[s ->]]; [discriminate|].
      inversion E. subst x. exfalso. apply Ha. now left.
    + inversion E. subst y. f_equal.
      apply IH; auto; intros Hin; [apply Ha | apply Hb]; now right.
Qed.

(** The subtrees of two different entries of a directory share no path. *)
Lemma under_siblings_disjoint (top a b p : str) :
  good_name a = true -> good_name b = true -> a <> b ->
  under (OsPath.join top a) p -> under (OsPath.join top b) p -> False.
Proof.
  intros Ha Hb Hab Hpa Hpb.
  destruct (under_join_shape top a p Ha Hpa) as [ta [Ea Hta]].
  destruct (under_join_shape top b p Hb Hpb) as [tb [E Htb]].
  rewrite Ea in E. apply app_inv_head in E.
  apply good_name_spec in Ha. apply good_name_spec in Hb.
  apply Hab. now apply (name_prefix_unique a b ta tb).
Qed.

Lemma rfind_from_absent (c : N) (s : str) (i : Z) :
  ~ In c s -> rfind_from c s i = (-1)%Z.
Proof.
  revert i. induction s as [|x s IH]; intros i H; simpl; [reflexivity|].
  rewrite IH by (intros Hin; apply H; now right). simpl.
  destruct (N.eqb_spec x c) as [->|_]; [|reflexivity].
  exfalso. apply H. now left.
Qed.

Lemma rfind_from_last (c : N) (a b : str) (i : Z) :
  ~ In c b -> (0 <= i)%Z ->
  rfind_from c (a ++ c :: b) i = (i + Z.of_nat (length a))%Z.
Proof.
  intros Hb. revert i. induction a as [|x a IH]; intros i Hi.
  - simpl. rewrite rfind_from_absent by exact Hb. simpl.
    rewrite N.eqb_refl. lia.
  - cbn [app rfind_from length]. rewrite IH by lia.
    destruct (Z.leb_spec 0 (i + 1 + Z.of_nat (length a))); lia.
Qed.


(** The base name of a path that ends with the separator is empty. *)
Lemma basename_trailing_sep (p : str) :
  OsPath.basename (p ++ [OsPath.sep]) = [].
Proof.
  unfold OsPath.basename, rfind, slice_from.
  rewrite rfind_from_last by (try lia; intros []).
  replace (Z.to_nat (0 + Z.of_nat (length p) + 1)) with (length p + 1) by lia.
  rewrite <- (length_app p [OsPath.sep]) at 1.
  apply skipn_all.
Qed.

(** The base name of an entry's path is the entry's name. *)
Lemma basename_join (top nm : str) :
  good_name nm = true -> OsPath.basename (OsPath.join top nm) = nm.
Proof.
  intros H. rewrite (join_good top nm H).
  apply good_name_spec in H. destruct H as [_ Hsep].
  unfold OsPath.basename, rfind, slice_from.
  destruct (dir_prefix_cases top) as [E|[a E]]; rewrite E.
  - simpl. now rewrite rfind_from_absent.
  - rewrite <- app_assoc. simpl.
    rewrite rfind_from_last by (try lia; exact Hsep).
    replace (Z.to_nat (0 + Z.of_nat (length a) + 1)) with (length (a ++ [OsPath.sep]))
      by (rewrite length_app; simpl; lia).
    replace (a ++ OsPath.sep :: nm) with ((a ++ [OsPath.sep]) ++ nm)
      by now rewrite <- app_assoc.
    rewrite skipn_app, skipn_all, Nat.sub_diag. reflexivity.
Qed.

(* ================================================================== *)
(** ** The error monad and the loops *)

Lemma bind_ok {A B} (r : result A) (k : A -> result B) (b : B) :
  bind r k = Ok b <-> exists a, r = Ok a /\ k a = Ok b.
Proof.
  destruct r as [a|e]; simpl; split.
  - intros H. now exists a.
  - intros [a' [E H]]. now inversion E.
  - discriminate.
  - intros [a' [E _]]. discriminate.
Qed.

Lemma for_each_collect {A} (body : list element -> A -> result (list element))
      (l : list A) (s : list element) :
  (forall s x, body s x = (r <- body [] x ;; Ok (s ++ r))) ->
  for_each body l s = (r <- collect (body []) l ;; Ok (s ++ r)).
Proof.
  intros Hbody. revert s. induction l as [|x l IH]; intros s; simpl.
  - now rewrite app_nil_r.
  - rewrite Hbody. destruct (body [] x) as [a|e]; simpl; [|reflexivity].
    rewrite IH. destruct (collect (body []) l) as [b|e]; simpl; [|reflexivity].
    now rewrite app_assoc.
Qed.

Lemma collect_app {A} (emit : A -> result (list element)) (l1 l2 : list A) :
  collect emit (l1 ++ l2)
  = (a <- collect emit l1 ;; b <- collect emit l2 ;; Ok (a ++ b)).
Proof.
  induction l1 as [|x l1 IH]; simpl.
  - destruct (collect emit l2); reflexivity.
  - destruct (emit x) as [a|e]; simpl; [|reflexivity].
    rewrite IH. destruct (collect emit l1) as [b|e]; simpl; [|reflexivity].
    destruct (collect emit l2) as [c|e]; simpl; [|reflexivity].
    now rewrite app_assoc.
Qed.

Lemma collect_app_ok {A} (emit : A -> result (list element))
      (l1 l2 : list A) (r : list element) :
  collect emit (l1 ++ l2) = Ok r ->
  exists r1 r2, collect emit l1 = Ok r1 /\ collect emit l2 = Ok r2
                /\ r = r1 ++ r2.
Proof.
  rewrite collect_app. intros H.
  apply bind_ok in H. destruct H as [r1 [H1 H]].
  apply bind_ok in H. destruct H as [r2 [H2 H]].
  exists r1, r2. repeat split; auto. now inversion H.
Qed.

Lemma collect_cons_ok {A} (emit : A -> result (list element))
      (x : A) (l : list A) (r : list element) :
  collect emit (x :: l) = Ok r ->
  exists r1 r2, emit x = Ok r1 /\ collect emit l = Ok r2 /\ r = r1 ++ r2.
Proof.
  simpl. intros H.
  apply bind_ok in H. destruct H as [r1 [H1 H]].
  apply bind_ok in H. destruct H as [r2 [H2 H]].
  exists r1, r2. repeat split; auto. now inversion H.
Qed.

(** An element collected over a list comes from one of its members. *)
Lemma collect_in {A} (emit : A -> result (list element))
      (l : list A) (r : list element) (x : element) :
  collect emit l = Ok r -> In x r ->
  exists a ra, In a l /\ emit a = Ok ra /\ In x ra.
Proof.
  revert r. induction l as [|a l IH]; intros r H Hx.
  - simpl in H. inversion H. subst r. destruct Hx.
  - apply collect_cons_ok in H. destruct H as [r1 [r2 [H1 [H2 ->]]]].
    apply in_app_or in Hx. destruct Hx as [Hx|Hx].
    + exists a, r1. repeat split; auto. now left.
    + destruct (IH r2 H2 Hx) as [a' [ra [Ha [E Hin]]]].
      exists a', ra. repeat split; auto. now right.
Qed.

Lemma collect_flat_map {A B} (emit : B -> result (list element))
      (f : A -> list B) (l : list A) :
  collect emit (flat_map f l) = collect (fun a => collect emit (f a)) l.
Proof.
  induction l as [|a l IH]; simpl; [reflexivity|].
  rewrite collect_app, IH. reflexivity.
Qed.

(* ================================================================== *)
(** ** Trees *)

Lemma nodupb_NoDup (l : list str) : nodupb l = true -> NoDup l.
Proof.
  induction l as [|x l IH]; simpl; intros H; [constructor|].
  apply andb_true_iff in H. destruct H as [Hx Hl].
  constructor; [|now apply IH].
  intros Hin. apply negb_true_iff in Hx.
  assert (existsb (str_eqb x) l = true) as E; [|congruence].
  apply existsb_exists. exists x. split; [exact Hin | apply str_eqb_refl].
Qed.

Lemma well_formed_dir (st : option stat_result) (entries : list (str * node)) :
  well_formed (Dir st (Some entries)) = true ->
  NoDup (map fst entries)
  /\ forall nm child, In (nm, child) entries ->
                      good_name nm = true /\ well_formed child = true.
Proof.
  simpl. intros H. apply andb_true_iff in H. destruct H as [Hnd Hall].
  split; [now apply nodupb_NoDup|].
  intros nm child Hin. rewrite forallb_forall in Hall.
  specialize (Hall (nm, child) Hin). simpl in Hall.
  now apply andb_true_iff in Hall.
Qed.

(** In a listing with pairwise different names, a name has one node. *)
Lemma NoDup_names_functional (entries : list (str * node))
      (nm : str) (a b : node) :
  NoDup (map fst entries) ->
  In (nm, a) entries -> In (nm, b) entries -> a = b.
Proof.
  induction entries as [|[k v] l IH]; simpl; intros Hnd Ha Hb; [easy|].
  inversion Hnd as [|? ? Hk Hl]. subst.
  assert (forall n, In (k, n) l -> False) as Hno.
  { intros n Hin. apply Hk. change k with (fst (k, n)). now apply in_map. }
  destruct Ha as [Ha|Ha], Hb as [Hb|Hb].
  - congruence.
  - inversion Ha. subst. exfalso. eauto.
  - inversion Hb. subst. exfalso. eauto.
  - now apply IH.
Qed.

Lemma NoDup_names_split (l1 l2 : list (str * node)) (nm : str) (c : node) :
  NoDup (map fst (l1 ++ (nm, c) :: l2)) ->
  forall nm' c', In (nm', c') l1 \/ In (nm', c') l2 -> nm' <> nm.
Proof.
  rewrite map_app. simpl. intros Hnd nm' c' Hin ->.
  apply NoDup_remove_2 in Hnd. apply Hnd. apply in_or_app.
  destruct Hin as [Hin|Hin]; [left | right];
    change nm with (fst (nm, c')); now apply in_map.
Qed.

(* ================================================================== *)
(** ** The analyzer *)

Section AnalyzerFacts.

Variable strftime : Z -> str.
Variable unicode_lower : str -> N -> str -> str.

Local Abbreviation analyze_file :=
  (FileSystemAnalyzer.analyze_file strftime unicode_lower).
Local Abbreviation analyze_dir :=
  (FileSystemAnalyzer.analyze_dir strftime unicode_lower).
Local Abbreviation analyze :=
  (FileSystemAnalyzer.analyze strftime unicode_lower).
Local Abbreviation code_record := (entry_record strftime unicode_lower).

Lemma entry_record_path (d nm : str) (st : stat_result) :
  e_path (code_record d nm st) = OsPath.join d nm.
Proof. unfold entry_record. now destruct (endswith _ _). Qed.

Lemma entry_record_type (d nm : str) (st : stat_result) :
  e_type (code_record d nm st) <> folder.
Proof. unfold entry_record. now destruct (endswith _ _). Qed.

(** One iteration of the inner loop: a link adds nothing and calls nothing
    that can raise; any other entry is stat'ed and adds its record. *)
Lemma analyze_file_cases (d : str) (acc : list element) (nm : str) (c : node) :
  analyze_file d acc (nm, c)
  = if Os.islink c then Ok acc
    else st <- Os.stat c ;; Ok (acc ++ [code_record d nm st]).
Proof.
  unfold FileSystemAnalyzer.analyze_file, entry_record,
    FileSystemAnalyzer.get_folder_info, FileSystemAnalyzer.get_file_info.
  destruct (Os.islink c); [reflexivity|].
  destruct (endswith _ _); destruct (Os.stat c); reflexivity.
Qed.

Lemma analyze_file_acc (d : str) (acc : list element) (e : str * node) :
  analyze_file d acc e = (r <- analyze_file d [] e ;; Ok (acc ++ r)).
Proof.
  destruct e as [nm c]. rewrite !analyze_file_cases.
  destruct (Os.islink c); simpl; [now rewrite app_nil_r|].
  destruct (Os.stat c); reflexivity.
Qed.

(** One iteration of the outer loop: the directory is stat'ed, its folder
    record is added, then the records of its file names. *)
Lemma analyze_dir_cases (acc : list element) (d : str) (dn : node)
      (dirs files : list (str * node)) :
  analyze_dir acc ((d, dn), dirs, files)
  = (st <- Os.stat dn ;;
     frs <- collect (analyze_file d []) files ;;
     Ok (acc ++ folder_record strftime d st :: frs)).
Proof.
  unfold FileSystemAnalyzer.analyze_dir, FileSystemAnalyzer.get_folder_info,
    folder_record.
  destruct (Os.stat dn) as [st|e]; simpl; [|reflexivity].
  rewrite for_each_collect by apply analyze_file_acc.
  destruct (collect _ files); simpl; [|reflexivity].
  now rewrite <- app_assoc.
Qed.

Lemma analyze_dir_acc (acc : list element) (item : Os.walk_item) :
  analyze_dir acc item = (r <- analyze_dir [] item ;; Ok (acc ++ r)).
Proof.
  destruct item as [[[d dn] dirs] files]. rewrite !analyze_dir_cases.
  destruct (Os.stat dn); simpl; [|reflexivity].
  destruct (collect _ files); reflexivity.
Qed.

(** [analyze] returns the concatenation of what the iterations add. *)
Lemma analyze_collect (root_path : str) (root : option node) :
  analyze root_path root
  = collect (analyze_dir []) (Os.walk false root_path root).
Proof.
  unfold FileSystemAnalyzer.analyze.
  rewrite for_each_collect by apply analyze_dir_acc.
  destruct (collect _ _); reflexivity.
Qed.

Lemma walk_node_dir (top : str) (st : option stat_result)
      (entries : list (str * node)) :
  Os.walk_node false top (Dir st (Some entries))
  = ((top, Dir st (Some entries)),
     filter (fun e : str * node => Os.is_dir (snd e)) entries,
     filter (fun e : str * node => negb (Os.is_dir (snd e))) entries)
    :: flat_map (walk_child top) entries.
Proof. reflexivity. Qed.

(** The records of the file names of a directory. *)
Lemma file_records_in (d : str) (files : list (str * node))
      (frs : list element) (x : element) :
  collect (analyze_file d []) files = Ok frs -> In x frs ->
  exists nm c st, In (nm, c) files /\ Os.islink c = false
                  /\ Os.stat c = Ok st /\ x = code_record d nm st.
Proof.
  intros H Hx.
  destruct (collect_in _ _ _ _ H Hx) as [[nm c] [ra [Hin [E Hra]]]].
  rewrite analyze_file_cases in E.
  destruct (Os.islink c) eqn:Hl.
  - inversion E. subst ra. destruct Hra.
  - apply bind_ok in E. destruct E as [st [Hst E]].
    inversion E. subst ra. destruct Hra as [<-|[]].
    now exists nm, c, st.
Qed.

Lemma under_top_join (top nm : str) :
  good_name nm = true -> under top (OsPath.join top nm).
Proof.
  intros H. apply (under_join_under top nm); [exact H | apply under_refl].
Qed.

(** What [os.walk] yields: listed directories, at or below the top. *)
Lemma walk_item_inv (n : node) :
  forall top d dn dirs files,
    well_formed n = true ->
    In ((d, dn), dirs, files) (Os.walk_node false top n) ->
    under top d /\ well_formed dn = true
    /\ exists st entries,
        dn = Dir st (Some entries)
        /\ dirs = filter (fun e : str * node => Os.is_dir (snd e)) entries
        /\ files = filter (fun e : str * node => negb (Os.is_dir (snd e)))
                          entries.
Proof.
  induction n as [st|st|st entries IH| |t IH] using node_induction;
    intros top d dn dirs files Hwf Hin; try (now destruct Hin).
  - rewrite walk_node_dir in Hin. destruct Hin as [E|Hin].
    + inversion E. subst. split; [apply under_refl|]. split; [exact Hwf|].
      now exists st, entries.
    + apply in_flat_map in Hin. destruct Hin as [[nm c] [Hc Hin]].
      unfold walk_child in Hin.
      destruct (Os.is_dir c && negb (Os.islink c)); [|now destruct Hin].
      destruct (well_formed_dir st entries Hwf) as [_ Hgood].
      destruct (Hgood nm c Hc) as [Hnm Hwfc].
      rewrite Forall_forall in IH.
      destruct (IH (nm, c) Hc _ _ _ _ _ Hwfc Hin) as [Hu Hrest].
      split; [|exact Hrest]. now apply (under_join_under top nm).
  - simpl in Hin, Hwf. now apply (IH top).
Qed.

(** Every record of a subtree has its path at or below the subtree's top. *)
Lemma subtree_under (n : node) :
  forall top els,
    well_formed n = true ->
    collect (analyze_dir []) (Os.walk_node false top n) = Ok els ->
    forall x, In x els -> under top (e_path x).
Proof.
  induction n as [st|st|st entries IH| |t IH] using node_induction;
    intros top els Hwf H x Hx;
    try (simpl in H; inversion H; subst els; now destruct Hx).
  - rewrite walk_node_dir in H.
    apply collect_cons_ok in H. destruct H as [own [rest [Hown [Hrest ->]]]].
    destruct (well_formed_dir st entries Hwf) as [_ Hgood].
    apply in_app_or in Hx. destruct Hx as [Hx|Hx].
    + rewrite analyze_dir_cases in Hown.
      apply bind_ok in Hown. destruct Hown as [s [_ Hown]].
      apply bind_ok in Hown. destruct Hown as [frs [Hfrs Hown]].
      inversion Hown. subst own. destruct Hx as [<-|Hx]; [apply under_refl|].
      destruct (file_records_in _ _ _ _ Hfrs Hx) as [nm [c [s' [Hin [_ [_ ->]]]]]].
      rewrite entry_record_path. apply filter_In in Hin.
      destruct Hin as [Hin _]. apply under_top_join. now apply (Hgood nm c).
    + rewrite collect_flat_map in Hrest.
      destruct (collect_in _ _ _ _ Hrest Hx) as [[nm c] [ra [Hc [E Hra]]]].
      unfold walk_child in E.
      destruct (Os.is_dir c && negb (Os.islink c)).
      * destruct (Hgood nm c Hc) as [Hnm Hwfc].
        rewrite Forall_forall in IH.
        apply (under_join_under top nm); [exact Hnm|].
        now apply (IH (nm, c) Hc _ ra Hwfc E).
      * simpl in E. inversion E. subst ra. destruct Hra.
  - simpl in H, Hwf. now apply (IH top els).
Qed.

(** Every record found below a directory lies below one of the entries of
    [dirnames] that is not a link. *)
Lemma children_under (top : str) (entries : list (str * node))
      (r : list element) :
  (forall nm c, In (nm, c) entries ->
                good_name nm = true /\ well_formed c = true) ->
  collect (analyze_dir []) (flat_map (walk_child top) entries) = Ok r ->
  forall x, In x r ->
    exists nm c, In (nm, c) entries /\ Os.is_dir c = true
                 /\ Os.islink c = false
                 /\ under (OsPath.join top nm) (e_path x).
Proof.
  intros Hgood H x Hx. rewrite collect_flat_map in H.
  destruct (collect_in _ _ _ _ H Hx) as [[nm c] [ra [Hc [E Hra]]]].
  unfold walk_child in E.
  destruct (Os.is_dir c) eqn:Hd, (Os.islink c) eqn:Hl; simpl in E;
    try (inversion E; subst ra; now destruct Hra).
  exists nm, c. repeat split; auto.
  destruct (Hgood nm c Hc) as [_ Hwfc].
  now apply (subtree_under c _ ra Hwfc E).
Qed.

(** The records a directory adds for itself and its file names are not at
    or below any entry of its [dirnames]. *)
Lemma own_records_not_below (top : str) (st : option stat_result)
      (entries : list (str * node)) (own : list element)
      (nm : str) (c : node) :
  well_formed (Dir st (Some entries)) = true ->
  analyze_dir []
    ((top, Dir st (Some entries)),
     filter (fun e : str * node => Os.is_dir (snd e)) entries,
     filter (fun e : str * node => negb (Os.is_dir (snd e))) entries)
  = Ok own ->
  In (nm, c) entries -> Os.is_dir c = true ->
  forall x, In x own -> ~ under (OsPath.join top nm) (e_path x).
Proof.
  intros Hwf Hown Hc Hd x Hx Hu.
  destruct (well_formed_dir st entries Hwf) as [Hnd Hgood].
  destruct (Hgood nm c Hc) as [Hnm _].
  rewrite analyze_dir_cases in Hown.
  apply bind_ok in Hown. destruct Hown as [s [_ Hown]].
  apply bind_ok in Hown. destruct Hown as [frs [Hfrs Hown]].
  inversion Hown. subst own. destruct Hx as [<-|Hx].
  - now apply (under_join_neq top nm _ Hnm Hu).
  - destruct (file_records_in _ _ _ _ Hfrs Hx)
      as [nm' [c' [s' [Hin [_ [_ ->]]]]]].
    rewrite entry_record_path in Hu.
    apply filter_In in Hin. destruct Hin as [Hin Hnd'].
    simpl in Hnd'. apply negb_true_iff in Hnd'.
    destruct (Hgood nm' c' Hin) as [Hnm' _].
    apply (under_siblings_disjoint top nm' nm (OsPath.join top nm'));
      auto using under_refl.
    intros ->. rewrite (NoDup_names_functional entries nm c' c Hnd Hin Hc) in Hnd'.
    congruence.
Qed.

(** The records below the other entries are not at or below [nm] either. *)
Lemma sibling_records_not_below (top : str) (others : list (str * node))
      (r : list element) (nm : str) :
  (forall nm' c', In (nm', c') others ->
                  good_name nm' = true /\ well_formed c' = true) ->
  (forall nm' c', In (nm', c') others -> nm' <> nm) ->
  good_name nm = true ->
  collect (analyze_dir []) (flat_map (walk_child top) others) = Ok r ->
  forall x, In x r -> ~ under (OsPath.join top nm) (e_path x).
Proof.
  intros Hgood Hneq Hnm H x Hx Hu.
  destruct (children_under top others r Hgood H x Hx)
    as [nm' [c' [Hin [_ [_ Hu']]]]].
  apply (under_siblings_disjoint top nm' nm (e_path x)); auto.
  - now apply (Hgood nm' c').
  - now apply (Hneq nm' c').
Qed.

(** The shape of the result around a visited directory: what precedes,
    the records of the directory and its file names, the records found
    below it, and what follows; nothing outside is at or below it. *)
Lemma subtree_decomp (n : node) :
  forall top els d dn dirs files,
    well_formed n = true ->
    collect (analyze_dir []) (Os.walk_node false top n) = Ok els ->
    In ((d, dn), dirs, files) (Os.walk_node false top n) ->
    exists pre own below post,
      els = pre ++ own ++ below ++ post
      /\ analyze_dir [] ((d, dn), dirs, files) = Ok own
      /\ (exists st entries,
             dn = Dir st (Some entries)
             /\ collect (analyze_dir []) (flat_map (walk_child d) entries)
                = Ok below)
      /\ (forall x, In x pre \/ In x post -> ~ under d (e_path x)).
Proof.
  induction n as [st|st|st entries IH| |t IH] using node_induction;
    intros top els d dn dirs files Hwf H Hin; try (now destruct Hin).
  - rewrite walk_node_dir in H, Hin.
    apply collect_cons_ok in H. destruct H as [own0 [rest [Hown0 [Hrest ->]]]].
    destruct Hin as [E|Hin].
    + inversion E. subst. exists [], own0, rest, [].
      rewrite app_nil_r. repeat split; auto.
      * now exists st, entries.
      * intros x [[]|[]].
    + apply in_flat_map in Hin. destruct Hin as [[nm c] [Hc Hin]].
      destruct (well_formed_dir st entries Hwf) as [Hnd Hgood].
      destruct (Hgood nm c Hc) as [Hnm Hwfc].
      rewrite Forall_forall in IH. specialize (IH (nm, c) Hc). cbn [snd] in IH.
      assert (Os.is_dir c = true /\
              walk_child top (nm, c)
              = Os.walk_node false (OsPath.join top nm) c) as [Hd Hwc].
      { unfold walk_child in *.
        destruct (Os.is_dir c); [|now destruct Hin].
        destruct (Os.islink c); [now destruct Hin | now split]. }
      rewrite Hwc in Hin.
      destruct (in_split _ _ Hc) as [l1 [l2 Hsplit]].
      rewrite Hsplit in Hrest. rewrite flat_map_app in Hrest.
      apply collect_app_ok in Hrest.
      destruct Hrest as [r1 [r23 [Hr1 [Hr23 ->]]]].
      cbn [flat_map] in Hr23. rewrite Hwc in Hr23.
      apply collect_app_ok in Hr23.
      destruct Hr23 as [r2 [r3 [Hr2 [Hr3 ->]]]].
      destruct (IH _ _ _ _ _ _ Hwfc Hr2 Hin)
        as [pre [own [below [post [-> [Hown [Hbelow Hout]]]]]]].
      destruct (walk_item_inv c _ _ _ _ _ Hwfc Hin) as [Hud _].
      exists (own0 ++ r1 ++ pre), own, below, (post ++ r3).
      split; [now repeat rewrite <- app_assoc|].
      split; [exact Hown|]. split; [exact Hbelow|].
      assert (forall nm' c', In (nm', c') l1 \/ In (nm', c') l2 ->
                good_name nm' = true /\ well_formed c' = true) as Hgood'.
      { intros nm' c' Hin'. apply Hgood. rewrite Hsplit.
        apply in_or_app. destruct Hin'; [now left | right; now right]. }
      assert (forall nm' c', In (nm', c') l1 \/ In (nm', c') l2 -> nm' <> nm)
        as Hneq.
      { apply (NoDup_names_split l1 l2 nm c). now rewrite <- Hsplit. }
      intros x Hx Hu.
      assert (under (OsPath.join top nm) (e_path x)) as Hu'
          by now apply (under_trans _ d).
      rewrite !in_app_iff in Hx.
      destruct Hx as [[Hx|[Hx|Hx]]|[Hx|Hx]].
      * now apply (own_records_not_below top st entries own0 nm c
                     Hwf Hown0 Hc Hd x Hx).
      * apply (sibling_records_not_below top l1 r1 nm) with (x := x); auto;
          intros nm' c' Hi;
          try (apply (Hgood' nm' c'); now left);
          try (apply (Hneq nm' c'); now left).
      * apply (Hout x); auto.
      * apply (Hout x); auto.
      * apply (sibling_records_not_below top l2 r3 nm) with (x := x); auto;
          intros nm' c' Hi;
          try (apply (Hgood' nm' c'); now right);
          try (apply (Hneq nm' c'); now right).
  - simpl in H, Hin, Hwf. now apply (IH top).
Qed.

(** A link in a listing leaves no record, neither for itself nor for
    anything below it. *)
Lemma link_has_no_record (root_path : str) (root : option node)
      (els : list element) (d : str) (dn : node)
      (dirs files : list (str * node)) (nm : str) (c : node) :
  well_formed_root root = true ->
  analyze root_path root = Ok els ->
  In ((d, dn), dirs, files) (Os.walk false root_path root) ->
  In (nm, c) dirs \/ In (nm, c) files ->
  Os.islink c = true ->
  forall x, In x els -> ~ under (OsPath.join d nm) (e_path x).
Proof.
  intros Hwf H Hitem Hc Hl x Hx Hu.
  destruct root as [n|]; [|now destruct Hitem].
  rewrite analyze_collect in H. simpl in H, Hitem, Hwf.
  destruct (walk_item_inv n _ _ _ _ _ Hwf Hitem)
    as [_ [Hwfd [st [entries [-> [-> ->]]]]]].
  destruct (well_formed_dir st entries Hwfd) as [Hnd Hgood].
  assert (In (nm, c) entries) as Hc'.
  { destruct Hc as [Hc|Hc]; apply filter_In in Hc; tauto. }
  destruct (Hgood nm c Hc') as [Hnm _].
  destruct (subtree_decomp n _ _ _ _ _ _ Hwf H Hitem)
    as [pre [own [below [post [-> [Hown [[st' [es' [E Hbelow]]] Hout]]]]]]].
  inversion E. subst st' es'. clear E.
  rewrite !in_app_iff in Hx.
  assert (forall nm' c', In (nm', c') entries -> Os.islink c' = false ->
                         nm' <> nm) as Hneq.
  { intros nm' c' Hin Hl' ->.
    rewrite (NoDup_names_functional entries nm c' c Hnd Hin Hc') in Hl'.
    congruence. }
  destruct Hx as [Hx|[Hx|[Hx|Hx]]].
  - apply (Hout x); [now left|]. now apply (under_join_under d nm).
  - rewrite analyze_dir_cases in Hown.
    apply bind_ok in Hown. destruct Hown as [s [_ Hown]].
    apply bind_ok in Hown. destruct Hown as [frs [Hfrs Hown]].
    inversion Hown. subst own. destruct Hx as [<-|Hx].
    + now apply (under_join_neq d nm _ Hnm Hu).
    + destruct (file_records_in _ _ _ _ Hfrs Hx)
        as [nm' [c' [s' [Hin [Hl' [_ ->]]]]]].
      rewrite entry_record_path in Hu.
      apply filter_In in Hin. destruct Hin as [Hin _].
      destruct (Hgood nm' c' Hin) as [Hnm' _].
      apply (under_siblings_disjoint d nm' nm (OsPath.join d nm'));
        eauto using under_refl.
  - destruct (children_under d entries below Hgood Hbelow x Hx)
      as [nm' [c' [Hin [_ [Hl' Hu']]]]].
    destruct (Hgood nm' c' Hin) as [Hnm' _].
    apply (under_siblings_disjoint d nm' nm (e_path x)); eauto.
  - apply (Hout x); [now right|]. now apply (under_join_under d nm).
Qed.

(** Taking the links out of the listings changes neither what an entry
    resolves to, nor its [stat]. *)
Lemma is_dir_remove_links (n : node) :
  Os.is_dir (remove_links n) = Os.is_dir n.
Proof.
  induction n as [st|st|st entries IH| |t IH] using node_induction;
    try reflexivity.
  unfold Os.is_dir in *. simpl. exact IH.
Qed.

Lemma stat_remove_links (n : node) : Os.stat (remove_links n) = Os.stat n.
Proof.
  induction n as [st|st|st entries IH| |t IH] using node_induction;
    try reflexivity.
  unfold Os.stat in *. simpl. exact IH.
Qed.

Lemma islink_remove_links (n : node) :
  Os.islink (remove_links n) = Os.islink n.
Proof. destruct n as [st|st [entries|]|[t|]]; reflexivity. Qed.

Lemma files_remove_links (top : str) (entries : list (str * node)) :
  collect (analyze_file top [])
    (filter (fun e : str * node => negb (Os.is_dir (snd e)))
       (flat_map (fun e : str * node =>
                    let (nm, child) := e in
                    if Os.islink child then []
                    else [(nm, remove_links child)]) entries))
  = collect (analyze_file top [])
      (filter (fun e : str * node => negb (Os.is_dir (snd e))) entries).
Proof.
  induction entries as [|[nm c] l IHl]; [reflexivity|].
  cbn [flat_map filter snd].
  destruct (Os.islink c) eqn:Hl.
  - cbn [app]. rewrite IHl.
    destruct (Os.is_dir c); cbn [negb]; [reflexivity|].
    cbn [collect]. rewrite analyze_file_cases, Hl. cbn [bind].
    now destruct (collect _ (filter _ l)).
  - cbn [app filter snd]. rewrite is_dir_remove_links.
    destruct (Os.is_dir c); cbn [negb]; [exact IHl|].
    cbn [collect]. rewrite !analyze_file_cases.
    rewrite islink_remove_links, stat_remove_links, Hl, IHl.
    reflexivity.
Qed.

(** The tree without its links is analysed like the tree itself: links
    contribute no record and no error. *)
Lemma subtree_remove_links (n : node) :
  forall top,
    collect (analyze_dir []) (Os.walk_node false top (remove_links n))
    = collect (analyze_dir []) (Os.walk_node false top n).
Proof.
  induction n as [st|st|st entries IH| |t IH] using node_induction;
    intros top; try reflexivity.
  - cbn [remove_links]. rewrite !walk_node_dir.
    cbn [collect]. rewrite !analyze_dir_cases.
    replace (Os.stat (Dir st (Some _))) with (Os.stat (Dir st (Some entries)))
      by reflexivity.
    rewrite files_remove_links.
    assert (collect (analyze_dir [])
              (flat_map (walk_child top)
                 (flat_map (fun e : str * node =>
                              let (nm, child) := e in
                              if Os.islink child then []
                              else [(nm, remove_links child)]) entries))
            = collect (analyze_dir []) (flat_map (walk_child top) entries))
      as ->; [|reflexivity].
    induction entries as [|[nm c] l IHl]; [reflexivity|].
    inversion IH as [|? ? Hc Hl]. subst. cbn [snd] in Hc.
    cbn [flat_map]. rewrite flat_map_app, !collect_app, (IHl Hl).
    f_equal. unfold walk_child at 2.
    destruct (Os.islink c) eqn:El.
    + rewrite andb_false_r. reflexivity.
    + cbn [flat_map walk_child]. rewrite app_nil_r.
      rewrite is_dir_remove_links, islink_remove_links, El.
      destruct (Os.is_dir c); cbn [andb negb]; [apply Hc | reflexivity].
  - cbn [remove_links]. simpl. apply IH.
Qed.

Lemma analyze_remove_links (root_path : str) (root : option node) :
  analyze root_path (option_map remove_links root) = analyze root_path root.
Proof.
  rewrite !analyze_collect. destruct root as [n|]; [|reflexivity].
  apply subtree_remove_links.
Qed.

(** What [os.walk] yields first: nothing when the top cannot be listed,
    else the top itself with its listing. *)
Lemma walk_node_listing (n : node) (top : str) :
  match Os.scandir n with
  | None => Os.walk_node false top n = []
  | Some entries =>
      exists dn,
        Os.stat dn = Os.stat n
        /\ Os.walk_node false top n
           = ((top, dn),
              filter (fun e : str * node => Os.is_dir (snd e)) entries,
              filter (fun e : str * node => negb (Os.is_dir (snd e))) entries)
             :: flat_map (walk_child top) entries
  end.
Proof.
  induction n as [st|st|st entries IH| |t IH] using node_induction;
    try reflexivity.
  - exists (Dir st (Some entries)). split; [reflexivity | apply walk_node_dir].
  - unfold Os.scandir, Os.stat in *. simpl. exact IH.
Qed.

(** The records of a visited directory, in the order the loops add them. *)
Lemma own_records (d : str) (dn : node) (dirs files : list (str * node))
      (own : list element) :
  analyze_dir [] ((d, dn), dirs, files) = Ok own ->
  exists st frs,
    Os.stat dn = Ok st
    /\ collect (analyze_file d []) files = Ok frs
    /\ own = folder_record strftime d st :: frs.
Proof.
  rewrite analyze_dir_cases. intros H.
  apply bind_ok in H. destruct H as [st [Hst H]].
  apply bind_ok in H. destruct H as [frs [Hfrs H]].
  exists st, frs. repeat split; auto. now inversion H.
Qed.

(** ** C1 *)

(** C1. For every root and every directory [d] that the walk visits, the
    result holds exactly one folder record for [d]; no record of an entry
    of [d], and no record at or below [d] at all, comes before it. *)
Theorem analyze_preorder (root_path : str) (root : option node)
        (els : list element) (d : str) (dn : node)
        (dirs files : list (str * node)) :
  well_formed_root root = true ->
  analyze root_path root = Ok els ->
  In ((d, dn), dirs, files) (Os.walk false root_path root) ->
  exists pre post st,
    Os.stat dn = Ok st
    /\ els = pre ++ folder_record strftime d st :: post
    /\ (forall x, In x pre \/ In x post ->
                  ~ (e_type x = folder /\ e_path x = d))
    /\ (forall x, In x pre -> ~ under d (e_path x))
    /\ (forall nm c, In (nm, c) dirs \/ In (nm, c) files ->
                     forall x, In x pre -> e_path x <> OsPath.join d nm).
Proof.
  intros Hwf H Hitem.
  destruct root as [n|]; [|now destruct Hitem].
  rewrite analyze_collect in H. simpl in H, Hitem, Hwf.
  destruct (walk_item_inv n _ _ _ _ _ Hwf Hitem)
    as [_ [Hwfd [st [entries [-> [-> ->]]]]]].
  destruct (well_formed_dir st entries Hwfd) as [Hnd Hgood].
  destruct (subtree_decomp n _ _ _ _ _ _ Hwf H Hitem)
    as [pre [own [below [post [-> [Hown [[st' [es' [E Hbelow]]] Hout]]]]]]].
  inversion E. subst st' es'. clear E.
  destruct (own_records _ _ _ _ _ Hown) as [s [frs [Hs [Hfrs ->]]]].
  exists pre, (frs ++ below ++ post), s.
  split; [exact Hs|]. split; [reflexivity|].
  split; [|split].
  - intros x Hx [Ht Hp]. rewrite !in_app_iff in Hx.
    destruct Hx as [Hx|[Hx|[Hx|Hx]]].
    + apply (Hout x); [now left|]. rewrite Hp. apply under_refl.
    + destruct (file_records_in _ _ _ _ Hfrs Hx)
        as [nm [c [s' [_ [_ [_ ->]]]]]].
      now apply (entry_record_type d nm s').
    + destruct (children_under d entries below Hgood Hbelow x Hx)
        as [nm [c [Hin [_ [_ Hu]]]]].
      destruct (Hgood nm c Hin) as [Hnm _].
      now apply (under_join_neq d nm _ Hnm Hu).
    + apply (Hout x); [now right|]. rewrite Hp. apply under_refl.
  - intros x Hx. apply Hout. now left.
  - intros nm c Hc x Hx Hp.
    assert (In (nm, c) entries) as Hc'.
    { destruct Hc as [Hc|Hc]; apply filter_In in Hc; tauto. }
    destruct (Hgood nm c Hc') as [Hnm _].
    apply (Hout x); [now left|]. rewrite Hp. now apply under_top_join.
Qed.

(** ** C2 *)

(** C2, amended. [analyze] returns the empty list exactly when the root
    cannot be listed (it is missing, not a directory, or unreadable),
    whether or not it can be stat'ed.  When the root is listed, a result
    starts with the folder record of the root, and for an empty directory
    a result is that record alone. *)
Theorem analyze_root_record (root_path : str) (root : option node) :
  match root_listing root with
  | None => analyze root_path root = Ok []
  | Some entries =>
      analyze root_path root <> Ok []
      /\ (forall els,
             analyze root_path root = Ok els ->
             exists st rest,
               root_stat root = Ok st
               /\ els = folder_record strftime root_path st :: rest)
      /\ (entries = [] ->
          forall els,
            analyze root_path root = Ok els ->
            exists st,
              root_stat root = Ok st
              /\ els = [folder_record strftime root_path st])
  end.
Proof.
  rewrite analyze_collect. destruct root as [n|]; [|reflexivity].
  simpl. pose proof (walk_node_listing n root_path) as Hw.
  destruct (Os.scandir n) as [entries|]; [|now rewrite Hw].
  destruct Hw as [dn [Hst ->]].
  assert (forall els,
             collect (analyze_dir [])
               (((root_path, dn),
                 filter (fun e : str * node => Os.is_dir (snd e)) entries,
                 filter (fun e : str * node => negb (Os.is_dir (snd e)))
                        entries)
                  :: flat_map (walk_child root_path) entries) = Ok els ->
             exists st rest,
               Os.stat n = Ok st
               /\ els = folder_record strftime root_path st :: rest) as Hhead.
  { intros els H.
    apply collect_cons_ok in H. destruct H as [own [rest [Hown [_ ->]]]].
    destruct (own_records _ _ _ _ _ Hown) as [s [frs [Hs [_ ->]]]].
    exists s, (frs ++ rest). split; [congruence | reflexivity]. }
  split; [|split].
  - intros H. destruct (Hhead [] H) as [s [rest [_ E]]]. discriminate.
  - exact Hhead.
  - intros -> els H. cbn [filter flat_map collect] in H.
    rewrite analyze_dir_cases, Hst in H.
    destruct (Os.stat n) as [s|e]; simpl in H; inversion H.
    now exists s.
Qed.

(** Every visited directory has its folder record in the result. *)
Lemma visited_has_record (root_path : str) (root : option node)
      (els : list element) (d : str) (dn : node)
      (dirs files : list (str * node)) :
  well_formed_root root = true ->
  analyze root_path root = Ok els ->
  In ((d, dn), dirs, files) (Os.walk false root_path root) ->
  exists st, In (folder_record strftime d st) els.
Proof.
  intros Hwf H Hitem.
  destruct root as [n|]; [|now destruct Hitem].
  rewrite analyze_collect in H. simpl in H, Hitem, Hwf.
  destruct (subtree_decomp n _ _ _ _ _ _ Hwf H Hitem)
    as [pre [own [below [post [-> [Hown _]]]]]].
  destruct (own_records _ _ _ _ _ Hown) as [s [frs [_ [_ ->]]]].
  exists s. apply in_or_app. right. now left.
Qed.

(** ** C3 *)

(** C3. A file name of a visited directory that is a symbolic link, whatever
    its name: the loop body leaves the list as it is without raising, no
    record of the result has the link's path or a path below it, and the
    result, hence the document every writer makes of it, is the one
    obtained for the tree without its links. *)
Theorem analyze_skips_symlinked_files (root_path : str) (root : option node)
        (els : list element) (d : str) (dn : node)
        (dirs files : list (str * node)) (nm : str) (c : node) :
  well_formed_root root = true ->
  analyze root_path root = Ok els ->
  In ((d, dn), dirs, files) (Os.walk false root_path root) ->
  In (nm, c) files ->
  Os.islink c = true ->
  (forall acc, analyze_file d acc (nm, c) = Ok acc)
  /\ (forall x, In x els -> e_path x <> OsPath.join d nm)
  /\ (forall x, In x els -> ~ under (OsPath.join d nm) (e_path x))
  /\ (exists els',
         analyze root_path (option_map remove_links root) = Ok els'
         /\ forall wr, writer_write wr els' = writer_write wr els).
Proof.
  intros Hwf H Hitem Hc Hl.
  assert (forall x, In x els -> ~ under (OsPath.join d nm) (e_path x)) as Hno.
  { apply (link_has_no_record root_path root els d dn dirs files nm c); auto. }
  split; [|split; [|split]].
  - intros acc. now rewrite analyze_file_cases, Hl.
  - intros x Hx Hp. apply (Hno x Hx). rewrite Hp. apply under_refl.
  - exact Hno.
  - exists els. split; [|reflexivity].
    now rewrite analyze_remove_links.
Qed.

(** ** C6 *)

(** C6, amended. A symbolic link to a directory found in a visited
    directory is listed in [dirnames] but is not followed: the walk visits
    nothing at or below it, no record has its path or a path below it, and
    the result is the one obtained for the tree without its links. *)
Theorem analyze_does_not_follow_dir_links
        (root_path : str) (root : option node)
        (els : list element) (d : str) (dn : node)
        (dirs files : list (str * node)) (nm : str) (c : node) :
  well_formed_root root = true ->
  analyze root_path root = Ok els ->
  In ((d, dn), dirs, files) (Os.walk false root_path root) ->
  In (nm, c) dirs ->
  Os.islink c = true ->
  (forall x, In x els -> ~ under (OsPath.join d nm) (e_path x))
  /\ (forall d' dn' dirs' files',
         In ((d', dn'), dirs', files') (Os.walk false root_path root) ->
         ~ under (OsPath.join d nm) d')
  /\ analyze root_path (option_map remove_links root) = Ok els.
Proof.
  intros Hwf H Hitem Hc Hl.
  assert (forall x, In x els -> ~ under (OsPath.join d nm) (e_path x)) as Hno.
  { apply (link_has_no_record root_path root els d dn dirs files nm c); auto. }
  split; [exact Hno|]. split.
  - intros d' dn' dirs' files' Hitem' Hu.
    destruct (visited_has_record root_path root els d' dn' dirs' files'
                Hwf H Hitem') as [st Hin].
    now apply (Hno _ Hin).
  - now rewrite analyze_remove_links.
Qed.

(** ** Names *)

(** A visited directory is the top or an entry of a directory. *)
Lemma walk_item_path (n : node) :
  forall top d dn dirs files,
    well_formed n = true ->
    In ((d, dn), dirs, files) (Os.walk_node false top n) ->
    d = top \/ exists d' nm, good_name nm = true /\ d = OsPath.join d' nm.
Proof.
  induction n as [st|st|st entries IH| |t IH] using node_induction;
    intros top d dn dirs files Hwf Hin; try (now destruct Hin).
  - rewrite walk_node_dir in Hin. destruct Hin as [E|Hin].
    + inversion E. now left.
    + right. apply in_flat_map in Hin. destruct Hin as [[nm c] [Hc Hin]].
      unfold walk_child in Hin.
      destruct (Os.is_dir c && negb (Os.islink c)); [|now destruct Hin].
      destruct (well_formed_dir st entries Hwf) as [_ Hgood].
      destruct (Hgood nm c Hc) as [Hnm Hwfc].
      rewrite Forall_forall in IH.
      destruct (IH (nm, c) Hc _ _ _ _ _ Hwfc Hin) as [->|Hd]; [|exact Hd].
      now exists top, nm.
  - simpl in Hin, Hwf. now apply (IH top d dn dirs files).
Qed.

(** The name of a record is the base name of its path, and it is empty for
    no record but, possibly, the one of the root path. *)
Lemma analyze_names (root_path : str) (root : option node)
      (els : list element) :
  well_formed_root root = true ->
  analyze root_path root = Ok els ->
  forall x, In x els ->
    e_name x = OsPath.basename (e_path x)
    /\ (e_path x = root_path \/ e_name x <> []).
Proof.
  intros Hwf H x Hx.
  destruct root as [n|];
    [|rewrite analyze_collect in H; inversion H; subst els; destruct Hx].
  rewrite analyze_collect in H. simpl in H, Hwf.
  destruct (collect_in _ _ _ _ H Hx) as [[[[d dn] dirs] files] [own [Hitem [Hown Hin]]]].
  destruct (walk_item_inv n _ _ _ _ _ Hwf Hitem)
    as [_ [Hwfd [st [entries [-> [-> ->]]]]]].
  destruct (well_formed_dir st entries Hwfd) as [_ Hgood].
  destruct (own_records _ _ _ _ _ Hown) as [s [frs [_ [Hfrs ->]]]].
  destruct Hin as [<-|Hin].
  - split; [reflexivity|]. simpl.
    destruct (walk_item_path n _ _ _ _ _ Hwf Hitem) as [->|[d' [nm [Hnm ->]]]];
      [now left | right].
    rewrite (basename_join d' nm Hnm).
    apply good_name_spec in Hnm. tauto.
  - destruct (file_records_in _ _ _ _ Hfrs Hin)
      as [nm [c [s' [Hc [_ [_ ->]]]]]].
    apply filter_In in Hc. destruct Hc as [Hc _].
    destruct (Hgood nm c Hc) as [Hnm _].
    unfold entry_record.
    destruct (endswith _ _); (split; [reflexivity|]); right; simpl;
      rewrite (basename_join d nm Hnm); apply good_name_spec in Hnm; tauto.
Qed.

(** ** C4 *)

Lemma startswith_prefix (s p : str) :
  startswith s p = true <-> exists r, s = p ++ r.
Proof.
  revert s. induction p as [|c p IH]; intros s; simpl.
  - split; [intros _; now exists s | reflexivity].
  - destruct s as [|d s].
    + split; [discriminate | intros [r H]; discriminate].
    + rewrite andb_true_iff, N.eqb_eq, IH. split.
      * intros [-> [r ->]]. now exists r.
      * intros [r H]. inversion H. split; [reflexivity | now exists r].
Qed.

Lemma endswith_suffix (s p : str) :
  endswith s p = true <-> exists r, s = r ++ p.
Proof.
  unfold endswith. rewrite startswith_prefix. split.
  - intros [r H]. exists (rev r).
    rewrite <- (rev_involutive s), H, rev_app_distr, rev_involutive.
    reflexivity.
  - intros [r ->]. exists (rev r). apply rev_app_distr.
Qed.

Hypothesis unicode_lower_ok : lower_keeps_ascii_apart unicode_lower.

(** [lower] works character by character. *)
Lemma lower_chunks (s : str) :
  forall before,
    exists chs, Forall2 lowered_char s chs
                /\ lower_from unicode_lower before s = concat chs.
Proof.
  induction s as [|c s IH]; intros before.
  - exists []. split; [constructor | reflexivity].
  - destruct (IH (before ++ [c])) as [chs [Hall E]]. simpl. rewrite E.
    destruct (N.ltb_spec c 128) as [Hc|Hc].
    + exists ([ascii_lower c] :: chs). split; [|reflexivity].
      constructor; [now left | exact Hall].
    + exists (unicode_lower before c s :: chs). split; [|reflexivity].
      constructor; [|exact Hall]. right. split; [exact Hc|].
      now apply unicode_lower_ok.
Qed.

(** When the lower-case form ends with one of [.], [z], [i], [p], that
    character is the lower-case form of the last character, an ASCII one. *)
Lemma lowered_last (s : str) (chs : list str) (p : str) (x : N) :
  Forall2 lowered_char s chs ->
  concat chs = p ++ [x] ->
  In x [46; 122; 105; 112]%N ->
  exists s' c chs',
    s = s' ++ [c] /\ (c < 128)%N /\ ascii_lower c = x
    /\ Forall2 lowered_char s' chs' /\ concat chs' = p.
Proof.
  intros Hall E Hx.
  destruct s as [|c s'] using rev_ind.
  - inversion Hall. subst chs. now destruct p.
  - clear IHs'. apply Forall2_app_inv_l in Hall.
    destruct Hall as [chs' [l [Hs' [Hc ->]]]].
    inversion Hc as [|? ch ? l' Hch Hnil]. subst. inversion Hnil. subst l'.
    rewrite concat_app in E. simpl in E. rewrite app_nil_r in E.
    destruct Hch as [[Hlt ->]|[_ [l [y [-> Hy]]]]].
    + apply app_inj_tail in E. destruct E as [E1 E2].
      now exists s', c, chs'.
    + rewrite app_assoc in E. apply app_inj_tail in E.
      destruct E as [_ ->]. contradiction.
Qed.

Lemma ascii_lower_cases (c x : N) :
  ascii_lower c = x -> c = x \/ (c + 32 = x /\ 65 <= c <= 90)%N.
Proof.
  unfold ascii_lower.
  destruct (N.leb_spec 65 c), (N.leb_spec c 90); simpl; intros <-; auto.
Qed.

(** The test of the program agrees with the words of the specification. *)
Lemma lower_endswith_zip (name : str) :
  endswith (lower unicode_lower name) (u ".zip") = ends_in_zip_any_case name.
Proof.
  apply eq_true_iff_eq. rewrite endswith_suffix. unfold lower. split.
  - intros [r E].
    destruct (lower_chunks name []) as [chs [Hall Hcat]]. rewrite E in Hcat.
    change (u ".zip") with ([46] ++ [122] ++ [105] ++ [112])%N in Hcat.
    rewrite !app_assoc in Hcat. symmetry in Hcat.
    destruct (lowered_last _ _ _ _ Hall Hcat) as [s3 [c3 [ch3 [-> [_ [H3 [Hall3 Hcat3]]]]]]];
      [simpl; tauto|].
    destruct (lowered_last _ _ _ _ Hall3 Hcat3) as [s2 [c2 [ch2 [-> [_ [H2 [Hall2 Hcat2]]]]]]];
      [simpl; tauto|].
    destruct (lowered_last _ _ _ _ Hall2 Hcat2) as [s1 [c1 [ch1 [-> [_ [H1 [Hall1 Hcat1]]]]]]];
      [simpl; tauto|].
    destruct (lowered_last _ _ _ _ Hall1 Hcat1) as [s0 [c0 [ch0 [-> [_ [H0 _]]]]]];
      [simpl; tauto|].
    unfold ends_in_zip_any_case. rewrite !rev_app_distr. simpl.
    apply ascii_lower_cases in H0, H1, H2, H3.
    rewrite !andb_true_iff, !orb_true_iff, !N.eqb_eq. lia.
  - unfold ends_in_zip_any_case. intros H.
    destruct (rev name) as [|c3 [|c2 [|c1 [|c0 r]]]] eqn:E; try discriminate.
    apply (f_equal (@rev N)) in E. rewrite rev_involutive in E. simpl in E.
    rewrite !andb_true_iff, !orb_true_iff, !N.eqb_eq in H.
    destruct (lower_chunks name []) as [chs [Hall Hcat]].
    rewrite Hcat. rewrite E in Hall. rewrite <- !app_assoc in Hall.
    apply Forall2_app_inv_l in Hall.
    destruct Hall as [chs0 [l [_ [Hl ->]]]].
    simpl in Hl.
    inversion Hl as [|? ch0 ? l0 Hc0 Hl0]. subst.
    inversion Hl0 as [|? ch1 ? l1 Hc1 Hl1]. subst.
    inversion Hl1 as [|? ch2 ? l2 Hc2 Hl2]. subst.
    inversion Hl2 as [|? ch3 ? l3 Hc3 Hl3]. subst.
    inversion Hl3. subst.
    exists (concat chs0). rewrite concat_app. f_equal.
    assert (forall c ch x, lowered_char c ch ->
                           (c = x \/ (c + 32 = x /\ 65 <= c <= 90))%N ->
                           (x = 46 \/ x = 122 \/ x = 105 \/ x = 112)%N ->
                           ch = [x]) as Hone.
    { intros c ch x [[_ ->]|[Hge _]] Hc Hxs; [|lia].
      unfold ascii_lower.
      destruct (N.leb_spec 65 c), (N.leb_spec c 90); simpl; f_equal; lia. }
    simpl. rewrite app_nil_r.
    rewrite (Hone c0 ch0 46%N), (Hone c1 ch1 122%N),
      (Hone c2 ch2 105%N), (Hone c3 ch3 112%N); auto; lia.
Qed.

Lemma entry_record_file_record (d nm : str) (st : stat_result) :
  good_name nm = true ->
  code_record d nm st = file_record strftime d nm st.
Proof.
  intros Hnm. unfold entry_record, file_record.
  now rewrite lower_endswith_zip, (basename_join d nm Hnm).
Qed.

(** C4. A file name of a visited directory that is not a symbolic link is
    stat'ed and has exactly one record in the result: a [zip_folder] record
    with the label ["FOLDER"] when the name ends in [.zip] in any letter
    case, a [file] record with the size in bytes otherwise. *)
Theorem analyze_classifies_files (root_path : str) (root : option node)
        (els : list element) (d : str) (dn : node)
        (dirs files : list (str * node)) (nm : str) (c : node) :
  well_formed_root root = true ->
  analyze root_path root = Ok els ->
  In ((d, dn), dirs, files) (Os.walk false root_path root) ->
  In (nm, c) files ->
  Os.islink c = false ->
  exists st,
    Os.stat c = Ok st
    /\ In (file_record strftime d nm st) els
    /\ (forall x, In x els -> e_path x = OsPath.join d nm ->
                  x = file_record strftime d nm st).
Proof.
  intros Hwf H Hitem Hc Hl.
  destruct root as [n|]; [|now destruct Hitem].
  rewrite analyze_collect in H. simpl in H, Hitem, Hwf.
  destruct (walk_item_inv n _ _ _ _ _ Hwf Hitem)
    as [_ [Hwfd [st [entries [-> [-> ->]]]]]].
  destruct (well_formed_dir st entries Hwfd) as [Hnd Hgood].
  assert (In (nm, c) entries /\ Os.is_dir c = false) as [Hc' Hd].
  { apply filter_In in Hc. destruct Hc as [Hc Hd]. split; [exact Hc|].
    simpl in Hd. now apply negb_true_iff in Hd. }
  destruct (Hgood nm c Hc') as [Hnm _].
  destruct (subtree_decomp n _ _ _ _ _ _ Hwf H Hitem)
    as [pre [own [below [post [-> [Hown [[st' [es' [E Hbelow]]] Hout]]]]]]].
  inversion E. subst st' es'. clear E.
  destruct (own_records _ _ _ _ _ Hown) as [s [frs [Hs [Hfrs ->]]]].
  assert (exists sc, Os.stat c = Ok sc /\ In (code_record d nm sc) frs)
    as [sc [Hsc Hrec]].
  { destruct (in_split _ _ Hc) as [f1 [f2 Hf]]. rewrite Hf in Hfrs.
    apply collect_app_ok in Hfrs. destruct Hfrs as [r1 [r23 [_ [Hr23 ->]]]].
    apply collect_cons_ok in Hr23. destruct Hr23 as [ra [r3 [Hra [_ ->]]]].
    rewrite analyze_file_cases, Hl in Hra.
    apply bind_ok in Hra. destruct Hra as [sc [Hsc Hra]].
    inversion Hra. subst ra. exists sc. split; [exact Hsc|].
    apply in_or_app. right. now left. }
  exists sc. split; [exact Hsc|].
  rewrite <- (entry_record_file_record d nm sc Hnm). split.
  - apply in_or_app. right. right. apply in_or_app. now left.
  - intros x Hx Hp. rewrite !in_app_iff in Hx.
    assert (under d (e_path x)) as Hud
        by (rewrite Hp; now apply under_top_join).
    destruct Hx as [Hx|[Hx|[Hx|Hx]]].
    + exfalso. apply (Hout x); auto.
    + destruct Hx as [<-|Hx].
      * exfalso. simpl in Hp.
        apply (under_join_neq d nm d Hnm); [|reflexivity].
        rewrite Hp at 2. apply under_refl.
      * destruct (file_records_in _ _ _ _ Hfrs Hx)
          as [nm' [c' [s' [Hin [_ [Hs' ->]]]]]].
        rewrite entry_record_path in Hp.
        apply filter_In in Hin. destruct Hin as [Hin _].
        destruct (Hgood nm' c' Hin) as [Hnm' _].
        destruct (list_eq_dec N.eq_dec nm' nm) as [->|Hneq].
        -- rewrite (NoDup_names_functional entries nm c' c Hnd Hin Hc') in Hs'.
           congruence.
        -- exfalso.
           apply (under_siblings_disjoint d nm' nm (OsPath.join d nm'));
             auto using under_refl.
           rewrite Hp. apply under_refl.
    + exfalso.
      destruct (children_under d entries below Hgood Hbelow x Hx)
        as [nm' [c' [Hin [Hd' [_ Hu']]]]].
      destruct (Hgood nm' c' Hin) as [Hnm' _].
      apply (under_siblings_disjoint d nm' nm (e_path x)); auto.
      * intros ->.
        rewrite (NoDup_names_functional entries nm c' c Hnd Hin Hc') in Hd'.
        congruence.
      * rewrite Hp. apply under_refl.
    + exfalso. apply (Hout x); auto.
Qed.

End AnalyzerFacts.

(* ================================================================== *)
(** ** The writers *)

Lemma fold_left_append {A B} (f : A -> list B) (l : list A) (init : list B) :
  fold_left (fun acc e => acc ++ f e) l init = init ++ flat_map f l.
Proof.
  revert init. induction l as [|x l IH]; intros init; simpl.
  - now rewrite app_nil_r.
  - now rewrite IH, app_assoc.
Qed.

(** The character class of the program is the set of the specification. *)
Lemma allowed_charset (c : N) :
  PDFWriter.allowed c = existsb (N.eqb c) pdf_charset.
Proof.
  destruct (N.ltb_spec c 128) as [Hc|Hc].
  - assert (forallb (fun k => Bool.eqb (PDFWriter.allowed (N.of_nat k))
                                       (existsb (N.eqb (N.of_nat k))
                                                pdf_charset))
                    (seq 0 128) = true) as Hall by (vm_compute; reflexivity).
    rewrite forallb_forall in Hall.
    specialize (Hall (N.to_nat c)). rewrite N2Nat.id in Hall.
    apply Bool.eqb_prop, Hall, in_seq. lia.
  - transitivity false.
    + unfold PDFWriter.allowed.
      rewrite (proj2 (N.leb_gt c 90)), (proj2 (N.leb_gt c 122)),
        (proj2 (N.leb_gt c 57)) by lia.
      rewrite !andb_false_r.
      repeat match goal with
             | |- context [(c =? ?k)%N] =>
                 rewrite (proj2 (N.eqb_neq c k)) by lia
             end.
      reflexivity.
    + symmetry. apply not_true_is_false. intros H.
      apply existsb_exists in H. destruct H as [x [Hx E]].
      apply N.eqb_eq in E. subst x.
      assert (forallb (fun x => (x <? 128)%N) pdf_charset = true) as Hall
          by (vm_compute; reflexivity).
      rewrite forallb_forall in Hall. apply Hall in Hx.
      apply N.ltb_lt in Hx. lia.
Qed.

(** ** C9 *)

(** C9. In the PDF report each line is built from the sanitised name, which
    keeps the characters of the name that are in
    [A-Za-z0-9._\- ()[]{}] and has an underscore in the place of every other
    character, so that it holds characters of that set only; the CSV, JSON,
    text, DOCX and XLSX writers put the name of the record itself, as it
    is, in their rows, objects, lines and paragraphs. *)
Theorem pdf_sanitises_names_only (elements : list element) :
  (forall name,
      length (PDFWriter.safe_name name) = length name
      /\ Forall (fun c => In c pdf_charset) (PDFWriter.safe_name name)
      /\ forall i c,
          nth_error name i = Some c ->
          nth_error (PDFWriter.safe_name name) i
          = Some (if existsb (N.eqb c) pdf_charset then c else 95%N))
  /\ PDFWriter.write elements
     = PdfFile
         ([AddPage; SetFont (u "Helvetica") (u "B") 14;
           Cell 0 10 (u "File Structure Report") (u "C"); Ln 6;
           SetFont (u "Helvetica") [] 9]
            ++ flat_map
                 (fun e =>
                    [MultiCell 190 6
                       (if is_folder_like (e_type e)
                        then u "[DIR]  " ++ PDFWriter.safe_name (e_name e)
                               ++ u " | Modified: " ++ e_mtime e
                        else u "[FILE] " ++ PDFWriter.safe_name (e_name e)
                               ++ u " | Size: " ++ fmt (e_size_or_type e)
                               ++ u " bytes | Modified: " ++ e_mtime e);
                     Ln 1])
                 elements)
  /\ CSVWriter.write elements
     = TextFile
         (u "Тип,Имя,Размер/Тип,Дата изменения" ++ nl
            ++ flat_map
                 (fun e =>
                    (if is_folder_like (e_type e) then u "Папка"
                     else u "Файл")
                      ++ u "," ++ e_name e ++ u ","
                      ++ fmt (e_size_or_type e) ++ u "," ++ e_mtime e ++ nl)
                 elements)
  /\ JSONWriter.write elements
     = JsonFile
         (map (fun e =>
                 mk_json (if is_folder_like (e_type e) then u "folder"
                          else u "file")
                         (e_name e) (e_size_or_type e) (e_mtime e))
              elements)
  /\ TextWriter.write elements
     = TextFile
         (flat_map
            (fun e =>
               (if is_folder_like (e_type e)
                then u "Папка: " ++ e_name e ++ u " | Тип: "
                       ++ fmt (e_size_or_type e)
                       ++ u " | Дата изменения: " ++ e_mtime e
                else u "Файл: " ++ e_name e ++ u " | Размер: "
                       ++ fmt (e_size_or_type e)
                       ++ u " байт | Дата изменения: " ++ e_mtime e) ++ nl)
            elements)
  /\ DOCXWriter.write elements
     = DocxFile
         (Heading (u "Отчёт о структуре файлов и папок") 0
            :: map (fun e =>
                      Paragraph
                        (if is_folder_like (e_type e)
                         then u "Папка: " ++ e_name e ++ u " | Тип: "
                                ++ fmt (e_size_or_type e)
                                ++ u " | Дата изменения: " ++ e_mtime e
                         else u "Файл: " ++ e_name e ++ u " | Размер: "
                                ++ fmt (e_size_or_type e)
                                ++ u " байт | Дата изменения: " ++ e_mtime e))
                   elements)
  /\ XLSXWriter.write elements
     = XlsxFile
         (u "Отчёт о структуре файлов и папок")
         ([Label (u "Тип"); Label (u "Имя"); Label (u "Размер/Тип");
           Label (u "Дата изменения")]
            :: map (fun e =>
                      [Label (if is_folder_like (e_type e) then u "Папка"
                              else u "Файл");
                       Label (e_name e); e_size_or_type e;
                       Label (e_mtime e)])
                   elements).
Proof.
  assert (forall A B (f : A -> B) (l : list A),
             flat_map (fun e => [f e]) l = map f l) as Hmap.
  { intros A B f l. induction l; simpl; congruence. }
  repeat split.
  - apply length_map.
  - unfold PDFWriter.safe_name. apply Forall_forall. intros c Hc.
    apply in_map_iff in Hc. destruct Hc as [x [<- _]].
    destruct (PDFWriter.allowed x) eqn:E.
    + rewrite allowed_charset in E. apply existsb_exists in E.
      destruct E as [y [Hy E]]. apply N.eqb_eq in E. now subst y.
    + vm_compute. tauto.
  - intros i c Hi. unfold PDFWriter.safe_name.
    rewrite nth_error_map, Hi. simpl. now rewrite allowed_charset.
  - unfold PDFWriter.write. rewrite fold_left_append. reflexivity.
  - unfold CSVWriter.write. rewrite fold_left_append.
    now rewrite <- app_assoc.
  - unfold JSONWriter.write. rewrite fold_left_append. simpl.
    now rewrite Hmap.
  - unfold TextWriter.write. rewrite fold_left_append. reflexivity.
  - unfold DOCXWriter.write. rewrite fold_left_append. simpl.
    now rewrite Hmap.
  - unfold XLSXWriter.write. rewrite fold_left_append. simpl.
    now rewrite Hmap.
Qed.

(* ================================================================== *)
(** ** The orchestrator *)

Lemma get_none (d : list (str * writer)) (ext : str) :
  ReportGenerator.get d ext = None <-> ~ In ext (map fst d).
Proof.
  induction d as [|[k v] d IH]; simpl.
  - split; [intros _ [] | reflexivity].
  - destruct (str_eqb k ext) eqn:E.
    + apply str_eqb_eq in E. split; [discriminate | intros H].
      exfalso. apply H. now left.
    + apply str_eqb_neq in E. rewrite IH. tauto.
Qed.

Lemma writers_supported :
  map fst ReportGenerator.writers = supported_extensions.
Proof. reflexivity. Qed.

Section GeneratorFacts.

Variable strftime : Z -> str.
Variable unicode_lower : str -> N -> str -> str.

Local Abbreviation analyze :=
  (FileSystemAnalyzer.analyze strftime unicode_lower).
Local Abbreviation generate :=
  (ReportGenerator.generate strftime unicode_lower).

(** ** C7 *)

(** C7, amended. When the input path exists and the extension of the output
    path, in lower case, is not one of [.csv], [.json], [.txt], [.log],
    [.docx], [.xlsx], [.pdf] (an output path without extension included),
    [generate] raises [ValueError] with a message that lists the seven
    extensions in sorted order, and leaves the world as it is: nothing is
    analysed, no writer is called, no file is written. *)
Theorem generate_unsupported_extension (input_path output_path : str)
        (w : world) :
  Os.path_exists (fs w input_path) = true ->
  ~ In (lower unicode_lower (snd (OsPath.splitext output_path)))
       supported_extensions ->
  generate input_path output_path w
  = (Raise (ValueError
              (u "Неподдерживаемое расширение: "
                 ++ lower unicode_lower (snd (OsPath.splitext output_path))
                 ++ u ". Поддерживаются: "
                 ++ u ".csv, .docx, .json, .log, .pdf, .txt, .xlsx")),
     w).
Proof.
  intros Hex Hext. unfold ReportGenerator.generate. rewrite Hex. cbn [negb].
  rewrite <- writers_supported in Hext. apply get_none in Hext.
  rewrite Hext. reflexivity.
Qed.

(** ** C8 *)

(** C8. When the input path does not exist, [generate] raises
    [FileNotFoundError] and leaves the world as it is: nothing is analysed,
    no writer is called, no file is created or changed. *)
Theorem generate_missing_input (input_path output_path : str) (w : world) :
  Os.path_exists (fs w input_path) = false ->
  generate input_path output_path w
  = (Raise (FileNotFoundError (u "Путь не существует: " ++ input_path)), w).
Proof.
  intros Hex. unfold ReportGenerator.generate. now rewrite Hex.
Qed.

(** ** C10 *)

(** C10. With an input path that exists and a supported extension: when
    [analyze] raises, [generate] raises the same exception, the report
    files are what they were and the trace gains the call of [analyze]
    only; the writer is called just when [analyze] has returned its list,
    after it, with that list. *)
Theorem generate_propagates_analyzer_error (input_path output_path : str)
        (w : world) (wr : writer) :
  Os.path_exists (fs w input_path) = true ->
  ReportGenerator.get ReportGenerator.writers
    (lower unicode_lower (snd (OsPath.splitext output_path))) = Some wr ->
  (forall e,
      analyze input_path (fs w input_path) = Raise e ->
      generate input_path output_path w
      = (Raise e, log (CallAnalyze input_path) w)
      /\ reports (snd (generate input_path output_path w)) = reports w
      /\ trace (snd (generate input_path output_path w))
         = trace w ++ [CallAnalyze input_path])
  /\ (forall elements,
         analyze input_path (fs w input_path) = Ok elements ->
         generate input_path output_path w
         = match save output_path (writer_write wr elements)
                      (log (CallWrite wr output_path)
                           (log (CallAnalyze input_path) w)) with
           | (Raise e, w') => (Raise e, w')
           | (Ok _, w') =>
               (Ok tt, log (CallPrint (u "Отчёт сохранён: " ++ output_path)) w')
           end)
  /\ (forall wr' p,
         In (CallWrite wr' p)
            (trace (snd (generate input_path output_path w))) ->
         In (CallWrite wr' p) (trace w)
         \/ exists elements,
             analyze input_path (fs w input_path) = Ok elements).
Proof.
  intros Hex Hget. unfold ReportGenerator.generate.
  rewrite Hex, Hget. cbn [negb fs log].
  destruct (analyze input_path (fs w input_path)) as [elements|e0].
  - split; [discriminate|]. split.
    + intros els E. inversion E. subst els. reflexivity.
    + intros wr' p _. right. now exists elements.
  - split; [|split; [discriminate|]].
    + intros e E. inversion E. subst e0. repeat split.
    + intros wr' p Hin. left. simpl in Hin.
      apply in_app_or in Hin. destruct Hin as [Hin|[Hin|[]]]; [exact Hin|].
      discriminate.
Qed.

End GeneratorFacts.

(* ================================================================== *)
(** ** Examples *)

Example analyze_sample_tree :
  FileSystemAnalyzer.analyze sample_strftime sample_unicode_lower
    (u "root") (Some sample_tree) = Ok sample_elements.
Proof. reflexivity. Qed.

Lemma sample_unicode_lower_ok : lower_keeps_ascii_apart sample_unicode_lower.
Proof.
  intros before c after Hc. exists [], c. split; [reflexivity|].
  simpl. intros [H|[H|[H|[H|[]]]]]; subst c; apply Hc; reflexivity.
Defined.

(** ** C1: witness *)

Lemma analyze_preorder_witness :
  exists pre post st,
    Os.stat sample_sub = Ok st
    /\ sample_elements
       = pre ++ folder_record sample_strftime (u "root/sub") st :: post
    /\ (forall x, In x pre \/ In x post ->
                  ~ (e_type x = folder /\ e_path x = u "root/sub"))
    /\ (forall x, In x pre -> ~ under (u "root/sub") (e_path x))
    /\ (forall nm c,
           In (nm, c) [] \/ In (nm, c) [(u "archive.ZIP", File (Some sample_stat))] ->
           forall x, In x pre ->
                     e_path x <> OsPath.join (u "root/sub") nm).
Proof.
  apply (analyze_preorder sample_strftime sample_unicode_lower
           (u "root") (Some sample_tree) sample_elements
           (u "root/sub") sample_sub
           [] [(u "archive.ZIP", File (Some sample_stat))]).
  - reflexivity.
  - reflexivity.
  - right. left. reflexivity.
Defined.

(** ** C2: counterexample and witness *)

(** C2 fails as stated: a root that is a regular file can be stat'ed, and
    exists for [generate], yet [analyze] returns the empty list for it. *)
Lemma analyze_regular_file_root_is_empty :
  root_stat (Some (File (Some sample_stat))) = Ok sample_stat
  /\ Os.path_exists (Some (File (Some sample_stat))) = true
  /\ FileSystemAnalyzer.analyze sample_strftime sample_unicode_lower
       (u "notes.txt") (Some (File (Some sample_stat))) = Ok [].
Proof. repeat split. Qed.

Lemma analyze_root_record_witness :
  exists st,
    root_stat (Some (Dir (Some sample_stat) (Some []))) = Ok st
    /\ [folder_record sample_strftime (u "empty") sample_stat]
       = [folder_record sample_strftime (u "empty") st].
Proof.
  apply (proj2 (proj2 (analyze_root_record
                         sample_strftime sample_unicode_lower (u "empty")
                         (Some (Dir (Some sample_stat) (Some [])))))
               eq_refl
               [folder_record sample_strftime (u "empty") sample_stat]).
  vm_compute. reflexivity.
Defined.

(** ** C3: witness *)

Lemma analyze_skips_symlinked_files_witness :
  (forall acc,
      FileSystemAnalyzer.analyze_file sample_strftime sample_unicode_lower
        (u "root") acc
        (u "shortcut.zip", Symlink (Some (File (Some sample_stat))))
      = Ok acc)
  /\ (forall x, In x sample_elements ->
                e_path x <> OsPath.join (u "root") (u "shortcut.zip"))
  /\ (forall x, In x sample_elements ->
                ~ under (OsPath.join (u "root") (u "shortcut.zip"))
                        (e_path x))
  /\ (exists els',
         FileSystemAnalyzer.analyze sample_strftime sample_unicode_lower
           (u "root") (option_map remove_links (Some sample_tree)) = Ok els'
         /\ forall wr, writer_write wr els' = writer_write wr sample_elements).
Proof.
  apply (analyze_skips_symlinked_files sample_strftime sample_unicode_lower
           (u "root") (Some sample_tree) sample_elements
           (u "root") sample_tree
           (filter (fun e : str * node => Os.is_dir (snd e))
                   [(u "a.txt", File (Some sample_stat));
                    (u "sub", sample_sub);
                    (u "shortcut.zip",
                     Symlink (Some (File (Some sample_stat))));
                    (u "loop",
                     Symlink (Some (Dir (Some sample_stat)
                                        (Some [(u "x",
                                                File (Some sample_stat))]))))])
           [(u "a.txt", File (Some sample_stat));
            (u "shortcut.zip", Symlink (Some (File (Some sample_stat))))]
           (u "shortcut.zip") (Symlink (Some (File (Some sample_stat))))).
  - reflexivity.
  - reflexivity.
  - left. reflexivity.
  - right. left. reflexivity.
  - reflexivity.
Defined.

(** ** C4: witness *)

Lemma analyze_classifies_files_witness :
  exists st,
    Os.stat (File (Some sample_stat)) = Ok st
    /\ In (file_record sample_strftime (u "root/sub") (u "archive.ZIP") st)
          sample_elements
    /\ (forall x, In x sample_elements ->
                  e_path x = OsPath.join (u "root/sub") (u "archive.ZIP") ->
                  x = file_record sample_strftime (u "root/sub")
                                  (u "archive.ZIP") st).
Proof.
  apply (analyze_classifies_files sample_strftime sample_unicode_lower
           sample_unicode_lower_ok
           (u "root") (Some sample_tree) sample_elements
           (u "root/sub") sample_sub
           [] [(u "archive.ZIP", File (Some sample_stat))]
           (u "archive.ZIP") (File (Some sample_stat))).
  - reflexivity.
  - reflexivity.
  - right. left. reflexivity.
  - left. reflexivity.
  - reflexivity.
Defined.

(** ** C5 *)

(** C5 fails on the code: for a root path that ends with the separator,
    such as [docs/], [os.path.basename] is empty, so the folder record of
    the root has an empty name although the path exists for [generate]. *)
Theorem root_name_empty_with_trailing_separator
        (strftime : Z -> str) (unicode_lower : str -> N -> str -> str)
        (p : str) (st : stat_result) :
  Os.path_exists (Some (Dir (Some st) (Some []))) = true
  /\ FileSystemAnalyzer.analyze strftime unicode_lower
       (p ++ [OsPath.sep]) (Some (Dir (Some st) (Some [])))
     = Ok [mk_element folder (p ++ [OsPath.sep]) [] (Label (u "FOLDER"))
                      (strftime (st_mtime st))].
Proof.
  split; [reflexivity|].
  unfold FileSystemAnalyzer.analyze. simpl.
  unfold FileSystemAnalyzer.get_folder_info. simpl.
  now rewrite basename_trailing_sep.
Qed.

(** ** C6: counterexample and witness *)

(** C6 fails as stated: [ld] is a symbolic link to a directory that holds
    [x]; the result has the record of the root only, no folder record for
    [ld] and nothing for [x]. *)
Lemma analyze_leaves_dir_link_unvisited :
  Os.islink (Symlink (Some (Dir (Some sample_stat)
                                (Some [(u "x", File (Some sample_stat))]))))
  = true
  /\ Os.is_dir (Symlink (Some (Dir (Some sample_stat)
                                   (Some [(u "x", File (Some sample_stat))]))))
     = true
  /\ FileSystemAnalyzer.analyze sample_strftime sample_unicode_lower
       (u "root")
       (Some (Dir (Some sample_stat)
                  (Some [(u "ld",
                          Symlink (Some (Dir (Some sample_stat)
                                             (Some [(u "x",
                                                     File (Some sample_stat))]))))])))
     = Ok [folder_record sample_strftime (u "root") sample_stat].
Proof. repeat split. Qed.

Lemma analyze_does_not_follow_dir_links_witness :
  (forall x, In x sample_elements ->
             ~ under (OsPath.join (u "root") (u "loop")) (e_path x))
  /\ (forall d' dn' dirs' files',
         In ((d', dn'), dirs', files')
            (Os.walk false (u "root") (Some sample_tree)) ->
         ~ under (OsPath.join (u "root") (u "loop")) d')
  /\ FileSystemAnalyzer.analyze sample_strftime sample_unicode_lower
       (u "root") (option_map remove_links (Some sample_tree))
     = Ok sample_elements.
Proof.
  apply (analyze_does_not_follow_dir_links
           sample_strftime sample_unicode_lower
           (u "root") (Some sample_tree) sample_elements
           (u "root") sample_tree
           [(u "sub", sample_sub);
            (u "loop",
             Symlink (Some (Dir (Some sample_stat)
                                (Some [(u "x", File (Some sample_stat))]))))]
           (filter (fun e : str * node => negb (Os.is_dir (snd e)))
                   [(u "a.txt", File (Some sample_stat));
                    (u "sub", sample_sub);
                    (u "shortcut.zip",
                     Symlink (Some (File (Some sample_stat))));
                    (u "loop",
                     Symlink (Some (Dir (Some sample_stat)
                                        (Some [(u "x",
                                                File (Some sample_stat))]))))])
           (u "loop")
           (Symlink (Some (Dir (Some sample_stat)
                               (Some [(u "x", File (Some sample_stat))]))))).
  - reflexivity.
  - reflexivity.
  - left. reflexivity.
  - right. left. reflexivity.
  - reflexivity.
Defined.

(** ** C7: counterexample and witness *)

(** C7 fails as stated: with an input path that does not exist, an
    unsupported extension is not reported; [FileNotFoundError] is raised
    first. *)
Lemma generate_missing_input_precedes_extension :
  ~ In (lower sample_unicode_lower (snd (OsPath.splitext (u "report.xyz"))))
       supported_extensions
  /\ fst (ReportGenerator.generate sample_strftime sample_unicode_lower
            (u "/does/not/exist") (u "report.xyz") sample_world)
     = Raise (FileNotFoundError (u "Путь не существует: /does/not/exist")).
Proof.
  split; [|vm_compute; reflexivity].
  vm_compute. intros H.
  repeat (destruct H as [H|H]; [discriminate|]). exact H.
Qed.

Lemma generate_unsupported_extension_witness :
  ReportGenerator.generate sample_strftime sample_unicode_lower
    (u "root") (u "report.xyz") sample_world
  = (Raise (ValueError
              (u "Неподдерживаемое расширение: "
                 ++ lower sample_unicode_lower
                      (snd (OsPath.splitext (u "report.xyz")))
                 ++ u ". Поддерживаются: "
                 ++ u ".csv, .docx, .json, .log, .pdf, .txt, .xlsx")),
     sample_world).
Proof.
  apply (generate_unsupported_extension sample_strftime sample_unicode_lower
           (u "root") (u "report.xyz") sample_world).
  - vm_compute. reflexivity.
  - vm_compute. intros H.
    repeat (destruct H as [H|H]; [discriminate|]). exact H.
Defined.

(** ** C8: witness *)

Lemma generate_missing_input_witness :
  ReportGenerator.generate sample_strftime sample_unicode_lower
    (u "/does/not/exist") (u "r.csv") sample_world
  = (Raise (FileNotFoundError
              (u "Путь не существует: " ++ u "/does/not/exist")),
     sample_world).
Proof.
  apply (generate_missing_input sample_strftime sample_unicode_lower
           (u "/does/not/exist") (u "r.csv") sample_world).
  vm_compute. reflexivity.
Defined.

(** ** C9: witness *)

Lemma pdf_sanitises_names_only_witness :
  nth_error (PDFWriter.safe_name (u "日本語.txt")) 0
  = Some (if existsb (N.eqb 26085) pdf_charset then 26085%N else 95%N).
Proof.
  apply (proj2 (proj2 (proj1 (pdf_sanitises_names_only [])
                             (u "日本語.txt")))
               0%nat 26085%N).
  vm_compute. reflexivity.
Defined.

(** ** C10: witness *)

Lemma generate_propagates_analyzer_error_witness :
  ReportGenerator.generate sample_strftime sample_unicode_lower
    (u "racy") (u "report.csv") sample_world
  = (Raise OSError, log (CallAnalyze (u "racy")) sample_world)
  /\ reports (snd (ReportGenerator.generate
                     sample_strftime sample_unicode_lower
                     (u "racy") (u "report.csv") sample_world))
     = reports sample_world
  /\ trace (snd (ReportGenerator.generate
                   sample_strftime sample_unicode_lower
                   (u "racy") (u "report.csv") sample_world))
     = trace sample_world ++ [CallAnalyze (u "racy")].
Proof.
  destruct (generate_propagates_analyzer_error
              sample_strftime sample_unicode_lower
              (u "racy") (u "report.csv") sample_world CSV) as [H _].
  - vm_compute. reflexivity.
  - vm_compute. reflexivity.
  - apply H. vm_compute. reflexivity.
Defined.

(* ================================================================== *)
(** ** Further properties of the analyzer *)

Lemma collect_ext {A} (f g : A -> result (list element)) (l : list A) :
  (forall a, In a l -> f a = g a) -> collect f l = collect g l.
Proof.
  induction l as [|a l IH]; intros H; simpl; [reflexivity|].
  rewrite (H a) by now left.
  rewrite IH by (intros b Hb; apply H; now right). reflexivity.
Qed.

(** A loop returns exactly when all its iterations do; otherwise it raises
    what one of them raises. *)
Lemma collect_outcome {A} (emit : A -> result (list element)) (l : list A) :
  match collect emit l with
  | Ok _ => forallb (fun a => is_ok (emit a)) l = true
  | Raise e =>
      forallb (fun a => is_ok (emit a)) l = false
      /\ exists a, In a l /\ emit a = Raise e
  end.
Proof.
  induction l as [|a l IH]; simpl; [reflexivity|].
  destruct (emit a) as [ra|e] eqn:Ea; simpl.
  - destruct (collect emit l) as [rl|e]; simpl; [exact IH|].
    destruct IH as [Hf [b [Hb Eb]]]. split; [exact Hf|].
    exists b. split; [now right | exact Eb].
  - split; [reflexivity|]. exists a. split; [now left | exact Ea].
Qed.

Lemma forallb_pointwise {A} (f g : A -> bool) (l : list A) :
  (forall a, f a = g a) -> forallb f l = forallb g l.
Proof.
  intros H. induction l as [|a l IH]; simpl; [reflexivity|].
  now rewrite H, IH.
Qed.

Section AnalyzerExtras.

Variable strftime : Z -> str.
Variable unicode_lower : str -> N -> str -> str.

Local Abbreviation analyze_file :=
  (FileSystemAnalyzer.analyze_file strftime unicode_lower).
Local Abbreviation analyze_dir :=
  (FileSystemAnalyzer.analyze_dir strftime unicode_lower).
Local Abbreviation analyze :=
  (FileSystemAnalyzer.analyze strftime unicode_lower).
Local Abbreviation code_record := (entry_record strftime unicode_lower).

Lemma file_paths (d : str) (files : list (str * node)) (frs : list element) :
  collect (analyze_file d []) files = Ok frs ->
  map e_path frs
  = map (fun e : str * node => OsPath.join d (fst e))
        (filter (fun e : str * node => negb (Os.islink (snd e))) files).
Proof.
  revert frs. induction files as [|[nm c] l IH]; intros frs H.
  - simpl in H. inversion H. reflexivity.
  - apply collect_cons_ok in H. destruct H as [ra [rl [Ha [Hl ->]]]].
    rewrite analyze_file_cases in Ha. cbn [filter snd].
    rewrite map_app, (IH rl Hl).
    destruct (Os.islink c); cbn [negb].
    + inversion Ha. reflexivity.
    + apply bind_ok in Ha. destruct Ha as [st [_ Ha]]. inversion Ha.
      cbn [app map fst]. now rewrite entry_record_path.
Qed.

Lemma collect_paths (items : list Os.walk_item) (els : list element) :
  collect (analyze_dir []) items = Ok els ->
  map e_path els = flat_map item_paths items.
Proof.
  revert els. induction items as [|[[[d dn] dirs] files] l IH]; intros els H.
  - simpl in H. inversion H. reflexivity.
  - apply collect_cons_ok in H. destruct H as [own [rl [Hown [Hl ->]]]].
    destruct (own_records _ _ _ _ _ _ _ Hown) as [st [frs [_ [Hfrs ->]]]].
    rewrite map_app, (IH rl Hl). cbn [flat_map item_paths map].
    now rewrite (file_paths d files frs Hfrs).
Qed.

(** X1. When [analyze] returns, the paths of its records are, for each
    directory that [os.walk] yields and in that order, the path of the
    directory followed by the joined paths of its file names that are not
    links, in listing order (nothing is sorted); so the number of records is
    the number of visited directories plus the number of those file
    names. *)
Theorem analyze_paths (root_path : str) (root : option node)
        (els : list element) :
  analyze root_path root = Ok els ->
  map e_path els = flat_map item_paths (Os.walk false root_path root)
  /\ length els
     = length (Os.walk false root_path root)
       + list_sum
           (map (fun item : Os.walk_item =>
                   length (filter (fun e : str * node =>
                                     negb (Os.islink (snd e)))
                                  (snd item)))
                (Os.walk false root_path root)).
Proof.
  intros H. rewrite analyze_collect in H.
  pose proof (collect_paths _ _ H) as Hp. split; [exact Hp|].
  rewrite <- (length_map e_path), Hp. clear.
  induction (Os.walk false root_path root) as [|[[[d dn] dirs] files] l IH];
    [reflexivity|].
  cbn [flat_map]. rewrite length_app, IH. unfold item_paths at 1.
  simpl. rewrite length_map. lia.
Qed.

Lemma analyze_dir_outcome (item : Os.walk_item) :
  is_ok (analyze_dir [] item) = item_statable item
  /\ forall e, analyze_dir [] item = Raise e -> e = OSError.
Proof.
  destruct item as [[[d dn] dirs] files]. rewrite analyze_dir_cases.
  unfold item_statable.
  assert (forall n e, Os.stat n = Raise e -> e = OSError) as Hstat.
  { intros n e. unfold Os.stat.
    destruct (resolve n) as [[[s|]|[s|] l|t]|]; intros H; now inversion H. }
  destruct (Os.stat dn) as [st|e0] eqn:Est; simpl.
  - pose proof (collect_outcome (analyze_file d []) files) as Hc.
    assert (forall a : str * node,
               is_ok (analyze_file d [] a)
               = (Os.islink (snd a) || is_ok (Os.stat (snd a)))) as Hfile.
    { intros [nm c]. rewrite analyze_file_cases. cbn [snd].
      destruct (Os.islink c); [reflexivity|]. now destruct (Os.stat c). }
    rewrite (forallb_pointwise _ _ files Hfile) in Hc.
    destruct (collect (analyze_file d []) files) as [frs|e]; simpl.
    + split; [now rewrite Hc | discriminate].
    + destruct Hc as [Hf [[nm c] [_ Ea]]]. split; [now rewrite Hf|].
      intros e' E. inversion E. subst e'.
      rewrite analyze_file_cases in Ea.
      destruct (Os.islink c); [discriminate|].
      destruct (Os.stat c) as [s|e1] eqn:Ec; [discriminate|].
      inversion Ea. subst e1. now apply (Hstat c).
  - split; [reflexivity|]. intros e E. inversion E. subst e0.
    now apply (Hstat dn).
Qed.

(** X2. [analyze] returns only if [os.stat] has succeeded on every
    directory that [os.walk] yields and on every one of their file names
    that is not a link: when one of these calls fails the analysis raises,
    and no partial list is returned. *)
Theorem analyze_needs_every_stat (root_path : str) (root : option node) :
  forallb item_statable (Os.walk false root_path root) = false ->
  is_ok (analyze root_path root) = false.
Proof.
  intros Hf. rewrite analyze_collect.
  pose proof (collect_outcome (analyze_dir [])
                              (Os.walk false root_path root)) as Hc.
  rewrite (forallb_pointwise _ _ _ (fun a => proj1 (analyze_dir_outcome a)))
    in Hc.
  destruct (collect (analyze_dir []) (Os.walk false root_path root))
    as [els|e]; [congruence | reflexivity].
Qed.

(** X3. Every record that [analyze] returns is about an entry that the
    walk has met and [os.stat] has answered: the directory of a walk item,
    with the tag [folder], or a file name of it that is not a link, at its
    joined path.  The name is the base name of the path, the time is the
    formatted [st_mtime] of that [stat] result, and the fourth component is
    the label ["FOLDER"] for [folder] and [zip_folder] and the [st_size] of
    that [stat] result for [file]. *)
Theorem analyze_record_invariants (root_path : str) (root : option node)
        (els : list element) :
  analyze root_path root = Ok els ->
  forall x, In x els ->
    exists d dn dirs files n st,
      In ((d, dn), dirs, files) (Os.walk false root_path root)
      /\ ((n = dn /\ e_path x = d /\ e_type x = folder)
          \/ (exists nm, In (nm, n) files /\ Os.islink n = false
                         /\ e_path x = OsPath.join d nm
                         /\ e_type x <> folder))
      /\ Os.stat n = Ok st
      /\ e_name x = OsPath.basename (e_path x)
      /\ e_mtime x = strftime (st_mtime st)
      /\ match e_type x with
         | file => e_size_or_type x = Size (st_size st)
         | _ => e_size_or_type x = Label (u "FOLDER")
         end.
Proof.
  intros H x Hx. rewrite analyze_collect in H.
  destruct (collect_in _ _ _ _ H Hx)
    as [[[[d dn] dirs] files] [own [Hitem [Hown Hin]]]].
  destruct (own_records _ _ _ _ _ _ _ Hown) as [s [frs [Hs [Hfrs ->]]]].
  exists d, dn, dirs, files.
  destruct Hin as [<-|Hin].
  - exists dn, s. repeat split; auto.
  - destruct (file_records_in _ _ _ _ _ _ Hfrs Hin)
      as [nm [c [s' [Hc [Hl [Hs' ->]]]]]].
    exists c, s'. split; [exact Hitem|].
    split; [right; exists nm; repeat split; auto|].
    + apply entry_record_path.
    + apply entry_record_type.
    + split; [exact Hs'|]. unfold entry_record.
      destruct (endswith _ _); repeat split.
Qed.

(** X4. In a well-formed tree, every record other than the one of the root
    path has a name that is not empty and holds no separator, and its path
    is that name joined to the path of a directory. *)
Theorem analyze_entry_names (root_path : str) (root : option node)
        (els : list element) :
  well_formed_root root = true ->
  analyze root_path root = Ok els ->
  forall x, In x els ->
    e_path x = root_path
    \/ (good_name (e_name x) = true
        /\ exists d, e_path x = OsPath.join d (e_name x)).
Proof.
  intros Hwf H x Hx.
  destruct root as [n|];
    [|rewrite analyze_collect in H; inversion H; subst els; destruct Hx].
  rewrite analyze_collect in H. simpl in H, Hwf.
  destruct (collect_in _ _ _ _ H Hx)
    as [[[[d dn] dirs] files] [own [Hitem [Hown Hin]]]].
  destruct (walk_item_inv n _ _ _ _ _ Hwf Hitem)
    as [_ [Hwfd [st [entries [-> [-> ->]]]]]].
  destruct (well_formed_dir st entries Hwfd) as [_ Hgood].
  destruct (own_records _ _ _ _ _ _ _ Hown) as [s [frs [_ [Hfrs ->]]]].
  destruct Hin as [<-|Hin].
  - simpl.
    destruct (walk_item_path n _ _ _ _ _ Hwf Hitem) as [->|[d' [nm [Hnm ->]]]];
      [now left | right].
    rewrite (basename_join d' nm Hnm). split; [exact Hnm | now exists d'].
  - right.
    destruct (file_records_in _ _ _ _ _ _ Hfrs Hin)
      as [nm [c [s' [Hc [_ [_ ->]]]]]].
    apply filter_In in Hc. destruct Hc as [Hc _].
    destruct (Hgood nm c Hc) as [Hnm _].
    unfold entry_record.
    destruct (endswith _ _); simpl; rewrite (basename_join d nm Hnm);
      (split; [exact Hnm | now exists d]).
Qed.

(** A record found below a directory comes from the walk of one of the
    entries of [dirnames] that is not a link. *)
Lemma child_records_origin (top : str) (entries : list (str * node))
      (r : list element) (x : element) :
  collect (analyze_dir []) (flat_map (walk_child top) entries) = Ok r ->
  In x r ->
  exists nm c ra,
    In (nm, c) entries /\ Os.is_dir c = true /\ Os.islink c = false
    /\ collect (analyze_dir [])
               (Os.walk_node false (OsPath.join top nm) c) = Ok ra
    /\ In x ra.
Proof.
  intros H Hx. rewrite collect_flat_map in H.
  destruct (collect_in _ _ _ _ H Hx) as [[nm c] [ra [Hc [E Hra]]]].
  unfold walk_child in E.
  destruct (Os.is_dir c) eqn:Hd, (Os.islink c) eqn:Hl; simpl in E;
    try (inversion E; subst ra; now destruct Hra).
  now exists nm, c, ra.
Qed.

(** X5. A sub-directory that cannot be listed is passed over without an
    error: although it is among [dirnames], the result has no record for it,
    not even its folder record, and none for anything below it. *)
Theorem analyze_skips_unlistable_directories
        (root_path : str) (root : option node)
        (els : list element) (d : str) (dn : node)
        (dirs files : list (str * node)) (nm : str) (c : node) :
  well_formed_root root = true ->
  analyze root_path root = Ok els ->
  In ((d, dn), dirs, files) (Os.walk false root_path root) ->
  In (nm, c) dirs ->
  Os.scandir c = None ->
  forall x, In x els -> ~ under (OsPath.join d nm) (e_path x).
Proof.
  intros Hwf H Hitem Hc Hscan x Hx Hu.
  destruct root as [n|]; [|now destruct Hitem].
  rewrite analyze_collect in H. simpl in H, Hitem, Hwf.
  destruct (walk_item_inv n _ _ _ _ _ Hwf Hitem)
    as [_ [Hwfd [st [entries [-> [-> ->]]]]]].
  destruct (well_formed_dir st entries Hwfd) as [Hnd Hgood].
  apply filter_In in Hc. destruct Hc as [Hc Hd]. cbn [snd] in Hd.
  destruct (Hgood nm c Hc) as [Hnm _].
  destruct (subtree_decomp strftime unicode_lower n _ _ _ _ _ _ Hwf H Hitem)
    as [pre [own [below [post [-> [Hown [[st' [es' [E Hbelow]]] Hout]]]]]]].
  inversion E. subst st' es'. clear E.
  rewrite !in_app_iff in Hx.
  destruct Hx as [Hx|[Hx|[Hx|Hx]]].
  - apply (Hout x); [now left|]. now apply (under_join_under d nm).
  - now apply (own_records_not_below strftime unicode_lower d st entries own
                 nm c Hwfd Hown Hc Hd x Hx).
  - destruct (child_records_origin d entries below x Hbelow Hx)
      as [nm' [c' [ra [Hin [_ [_ [Hra Hxa]]]]]]].
    destruct (Hgood nm' c' Hin) as [Hnm' Hwfc'].
    destruct (list_eq_dec N.eq_dec nm' nm) as [->|Hneq].
    + rewrite (NoDup_names_functional entries nm c' c Hnd Hin Hc) in Hra.
      pose proof (walk_node_listing c (OsPath.join d nm)) as Hw.
      rewrite Hscan in Hw. rewrite Hw in Hra. simpl in Hra.
      inversion Hra. subst ra. destruct Hxa.
    + apply (under_siblings_disjoint d nm' nm (e_path x)); auto.
      now apply (subtree_under strftime unicode_lower c' _ ra Hwfc' Hra).
  - apply (Hout x); [now right|]. now apply (under_join_under d nm).
Qed.

(** X6. The analysis of a directory that can be listed is compositional:
    it is the folder record of the directory, then the records of its file
    names, then, for each entry of [dirnames] that is not a link and in
    listing order, the whole analysis of that sub-directory under its
    joined path; an exception of any part is the exception of the whole. *)
Theorem analyze_listed_directory (root_path : str)
        (st : option stat_result) (entries : list (str * node)) :
  analyze root_path (Some (Dir st (Some entries)))
  = (s <- Os.stat (Dir st (Some entries)) ;;
     frs <- collect (analyze_file root_path [])
                    (filter (fun e : str * node => negb (Os.is_dir (snd e)))
                            entries) ;;
     subs <- collect
               (fun e : str * node =>
                  if Os.is_dir (snd e) && negb (Os.islink (snd e))
                  then analyze (OsPath.join root_path (fst e)) (Some (snd e))
                  else Ok [])
               entries ;;
     Ok (folder_record strftime root_path s :: frs ++ subs)).
Proof.
  rewrite analyze_collect. cbn [Os.walk]. rewrite walk_node_dir.
  cbn [collect]. rewrite analyze_dir_cases, collect_flat_map.
  rewrite (collect_ext
             (fun a => collect (analyze_dir []) (walk_child root_path a))
             (fun e : str * node =>
                if Os.is_dir (snd e) && negb (Os.islink (snd e))
                then analyze (OsPath.join root_path (fst e)) (Some (snd e))
                else Ok [])).
  - destruct (Os.stat (Dir st (Some entries))); [|reflexivity].
    cbn [bind]. destruct (collect (analyze_file root_path []) _);
      [|reflexivity].
    cbn [bind]. destruct (collect _ entries); reflexivity.
  - intros [nm c] _. unfold walk_child. cbn [fst snd].
    destruct (Os.is_dir c && negb (Os.islink c)); [|reflexivity].
    now rewrite analyze_collect.
Qed.

End AnalyzerExtras.

(* ================================================================== *)
(** ** Further properties of the writers *)

Lemma flat_map_Forall2 {A B} (R : A -> A -> Prop) (f : A -> list B)
      (l l' : list A) :
  (forall a b, R a b -> f a = f b) ->
  Forall2 R l l' -> flat_map f l = flat_map f l'.
Proof.
  intros Hf H. induction H as [|a b l l' Hab _ IH]; simpl; [reflexivity|].
  now rewrite (Hf a b Hab), IH.
Qed.

Lemma flat_map_singleton_inj {A B} (R : A -> A -> Prop) (f : A -> B)
      (l l' : list A) :
  (forall a b, f a = f b -> R a b) ->
  flat_map (fun e => [f e]) l = flat_map (fun e => [f e]) l' ->
  Forall2 R l l'.
Proof.
  intros Hf. revert l'. induction l as [|a l IH]; intros [|b l'] H;
    simpl in H; try discriminate; constructor.
  - apply Hf. now inversion H.
  - apply IH. now inversion H.
Qed.

(** X7. No writer renders the path of a record, and no writer tells a zip
    archive from a directory: two lists of records that agree, record by
    record, on name, size or label, time, and on being folder-like, give
    the same document with every writer. *)
Theorem writers_ignore_path_and_zip (els els' : list element) :
  Forall2 same_rendering els els' ->
  forall wr, writer_write wr els = writer_write wr els'.
Proof.
  intros H wr.
  destruct wr; cbn [writer_write];
    unfold CSVWriter.write, JSONWriter.write, TextWriter.write,
      DOCXWriter.write, XLSXWriter.write, PDFWriter.write;
    rewrite !fold_left_append; do 2 f_equal;
    apply (flat_map_Forall2 same_rendering); auto;
    intros a b [Ht [Hn [Hs Hm]]];
    unfold CSVWriter.row, JSONWriter.entry, TextWriter.line,
      XLSXWriter.row, PDFWriter.line;
    now rewrite Ht, Hn, Hs, Hm.
Qed.

(** X8. The JSON and the XLSX reports lose nothing else: two lists of
    records that give the same JSON data, or the same worksheet, agree
    record by record on name, size or label, time, and on being
    folder-like (and so have the same length and order). *)
Theorem json_and_xlsx_determine_records (els els' : list element) :
  JSONWriter.write els = JSONWriter.write els'
  \/ XLSXWriter.write els = XLSXWriter.write els' ->
  Forall2 same_rendering els els'.
Proof.
  assert (u "folder" <> u "file") as Hj by (vm_compute; discriminate).
  assert (u "Папка" <> u "Файл") as Hx by (vm_compute; discriminate).
  unfold JSONWriter.write, XLSXWriter.write.
  rewrite !fold_left_append. intros [H|H].
  - inversion H as [H1]. revert H1.
    apply flat_map_singleton_inj. intros a b E.
    unfold JSONWriter.entry in E. inversion E as [[Ht Hn Hs Hm]].
    repeat split; auto.
    destruct (is_folder_like (e_type a)), (is_folder_like (e_type b));
      congruence.
  - inversion H as [H1]. revert H1.
    apply flat_map_singleton_inj. intros a b E.
    unfold XLSXWriter.row in E. inversion E as [[Ht Hn Hs Hm]].
    repeat split; auto.
    destruct (is_folder_like (e_type a)), (is_folder_like (e_type b));
      congruence.
Qed.

Lemma flat_map_flat_map_singleton {A B C} (f : A -> B) (g : B -> list C)
      (l : list A) :
  flat_map g (flat_map (fun e => [f e]) l) = flat_map (fun e => g (f e)) l.
Proof.
  induction l as [|a l IH]; simpl; [reflexivity|].
  now rewrite IH.
Qed.

(** X9. The CSV report is the worksheet of the XLSX report written out as
    text: for the same records, its content is the rows of the worksheet,
    header included and in the same order, each with its four cells
    separated by commas and followed by a line feed. *)
Theorem csv_is_xlsx_as_text (els : list element) :
  exists title rows,
    XLSXWriter.write els = XlsxFile title rows
    /\ CSVWriter.write els
       = TextFile
           (flat_map (fun row => str_join (u ",") (map fmt row) ++ nl) rows).
Proof.
  unfold XLSXWriter.write, CSVWriter.write. rewrite !fold_left_append.
  eexists. eexists. split; [reflexivity|]. f_equal.
  cbn [app flat_map]. rewrite flat_map_flat_map_singleton.
  assert (str_join (u ",")
            (map fmt [Label (u "Тип"); Label (u "Имя");
                      Label (u "Размер/Тип"); Label (u "Дата изменения")])
          = u "Тип,Имя,Размер/Тип,Дата изменения") as ->
      by (vm_compute; reflexivity).
  apply (f_equal (app _)).
  apply flat_map_ext. intros e. unfold CSVWriter.row, XLSXWriter.row.
  cbn [map fmt str_join]. now rewrite <- !app_assoc.
Qed.

(** X10. The CSV writer quotes nothing, so its text does not determine the
    records: one file whose name holds commas and a line feed gives the
    very text that two files give. *)
Theorem csv_rows_are_ambiguous (a b m p1 p2 p3 : str) (s1 s2 : N) :
  CSVWriter.write
    [mk_element file p1 a (Size s1) m; mk_element file p2 b (Size s2) m]
  = CSVWriter.write
      [mk_element file p3
                  (a ++ u "," ++ str_of_int s1 ++ u "," ++ m ++ nl
                     ++ u "Файл" ++ u "," ++ b)
                  (Size s2) m].
Proof.
  unfold CSVWriter.write, CSVWriter.row. cbn [fold_left is_folder_like
    e_type e_name e_size_or_type e_mtime fmt].
  now rewrite <- !app_assoc.
Qed.

(** X11. Sanitising a name for the PDF report is idempotent, and it leaves a
    name as it is exactly when all the characters of the name are in the
    class [A-Za-z0-9._\- ()[\]{}]; in particular the empty name stays
    empty. *)
Theorem safe_name_idempotent (name : str) :
  PDFWriter.safe_name (PDFWriter.safe_name name) = PDFWriter.safe_name name
  /\ (PDFWriter.safe_name name = name
      <-> forallb PDFWriter.allowed name = true).
Proof.
  unfold PDFWriter.safe_name. split.
  - rewrite map_map. apply map_ext. intros c.
    destruct (PDFWriter.allowed c) eqn:E; [now rewrite E | reflexivity].
  - induction name as [|c name IH]; simpl; [tauto|].
    rewrite andb_true_iff, <- IH.
    destruct (PDFWriter.allowed c) eqn:E; split.
    + intros H. inversion H as [H1]. now rewrite H1.
    + intros [_ H]. now rewrite H.
    + intros H. inversion H as [[H1 H2]]. subst c. discriminate.
    + intros [H _]. discriminate.
Qed.

(** X12. Every writer makes one item per record and nothing else besides
    its fixed header, whatever the records are: as many JSON objects as
    records, one heading and as many paragraphs, one header row and as many
    rows, five opening calls and two drawing calls per record; for no
    record at all the document is the header alone. *)
Theorem writers_one_item_per_record (els : list element) :
  (exists data, JSONWriter.write els = JsonFile data
                /\ length data = length els)
  /\ (exists h blocks, DOCXWriter.write els = DocxFile (h :: blocks)
                       /\ length blocks = length els)
  /\ (exists title h rows, XLSXWriter.write els = XlsxFile title (h :: rows)
                           /\ length rows = length els)
  /\ (exists ops, PDFWriter.write els = PdfFile ops
                  /\ length ops = 5 + 2 * length els).
Proof.
  assert (forall A (f : element -> A),
             length (flat_map (fun e => [f e]) els) = length els) as Hlen.
  { intros A f. induction els as [|e l IH]; simpl; congruence. }
  unfold JSONWriter.write, DOCXWriter.write, XLSXWriter.write,
    PDFWriter.write.
  rewrite !fold_left_append. repeat split.
  - eexists. split; [reflexivity|]. apply Hlen.
  - eexists. eexists. split; [reflexivity|]. apply Hlen.
  - eexists. eexists. eexists. split; [reflexivity|]. apply Hlen.
  - eexists. split; [reflexivity|]. rewrite length_app. cbn [length].
    f_equal. clear. induction els as [|e l IH]; simpl; [reflexivity|].
    rewrite IH. lia.
Qed.

(* ================================================================== *)
(** ** Further properties of the orchestrator and of the entry point *)

Section GeneratorExtras.

Variable strftime : Z -> str.
Variable unicode_lower : str -> N -> str -> str.
Variable oserror_text : str.

Local Abbreviation analyze :=
  (FileSystemAnalyzer.analyze strftime unicode_lower).
Local Abbreviation generate :=
  (ReportGenerator.generate strftime unicode_lower).
Local Abbreviation run_main :=
  (main strftime unicode_lower oserror_text).

(** The run of [generate] once the input exists, a writer is chosen and the
    analysis has returned. *)
Lemma generate_after_analysis (input_path output_path : str) (w : world)
      (wr : writer) (els : list element) :
  Os.path_exists (fs w input_path) = true ->
  ReportGenerator.get ReportGenerator.writers
    (lower unicode_lower (snd (OsPath.splitext output_path))) = Some wr ->
  analyze input_path (fs w input_path) = Ok els ->
  generate input_path output_path w
  = if creatable w output_path then
      (Ok tt,
       mk_world (fs w) (creatable w)
                (fun p => if str_eqb p output_path
                          then Some (writer_write wr els) else reports w p)
                (trace w ++ [CallAnalyze input_path]
                         ++ [CallWrite wr output_path]
                         ++ [CallPrint (u "Отчёт сохранён: " ++ output_path)]))
    else
      (Raise OSError,
       mk_world (fs w) (creatable w) (reports w)
                (trace w ++ [CallAnalyze input_path]
                         ++ [CallWrite wr output_path])).
Proof.
  intros Hex Hget Han. unfold ReportGenerator.generate.
  rewrite Hex, Hget. cbn [negb fs log]. rewrite Han.
  unfold save, log. cbn [creatable fs reports trace].
  destruct (creatable w output_path); cbn [fs creatable reports trace];
    now rewrite <- !app_assoc.
Qed.

(** What [generate] does, case by case. *)
Lemma generate_cases (input_path output_path : str) (w : world) :
  (Os.path_exists (fs w input_path) = false
   /\ generate input_path output_path w
      = (Raise (FileNotFoundError (u "Путь не существует: " ++ input_path)),
         w))
  \/ (Os.path_exists (fs w input_path) = true
      /\ ReportGenerator.get ReportGenerator.writers
           (lower unicode_lower (snd (OsPath.splitext output_path))) = None
      /\ exists msg,
          generate input_path output_path w = (Raise (ValueError msg), w))
  \/ (exists wr,
         Os.path_exists (fs w input_path) = true
         /\ ReportGenerator.get ReportGenerator.writers
              (lower unicode_lower (snd (OsPath.splitext output_path)))
            = Some wr
         /\ ((exists e,
                 analyze input_path (fs w input_path) = Raise e
                 /\ generate input_path output_path w
                    = (Raise e, log (CallAnalyze input_path) w))
             \/ (exists els,
                    analyze input_path (fs w input_path) = Ok els
                    /\ generate input_path output_path w
                       = if creatable w output_path then
                           (Ok tt,
                            mk_world
                              (fs w) (creatable w)
                              (fun p => if str_eqb p output_path
                                        then Some (writer_write wr els)
                                        else reports w p)
                              (trace w ++ [CallAnalyze input_path]
                                 ++ [CallWrite wr output_path]
                                 ++ [CallPrint (u "Отчёт сохранён: "
                                                  ++ output_path)]))
                         else
                           (Raise OSError,
                            mk_world
                              (fs w) (creatable w) (reports w)
                              (trace w ++ [CallAnalyze input_path]
                                 ++ [CallWrite wr output_path]))))).
Proof.
  destruct (Os.path_exists (fs w input_path)) eqn:Hex.
  - right.
    destruct (ReportGenerator.get ReportGenerator.writers
                (lower unicode_lower (snd (OsPath.splitext output_path))))
      as [wr|] eqn:Hget.
    + right. exists wr. split; [reflexivity|]. split; [reflexivity|].
      destruct (analyze input_path (fs w input_path)) as [els|e] eqn:Han.
      * right. exists els. split; [reflexivity|].
        apply (generate_after_analysis _ _ _ wr els Hex Hget Han).
      * left. exists e. split; [reflexivity|].
        unfold ReportGenerator.generate. rewrite Hex, Hget.
        cbn [negb fs log]. now rewrite Han.
    + left. split; [reflexivity|]. split; [reflexivity|].
      unfold ReportGenerator.generate. rewrite Hex, Hget. cbn [negb].
      eexists. reflexivity.
  - left. split; [reflexivity|].
    unfold ReportGenerator.generate. now rewrite Hex.
Qed.

(** X13. [generate] returns only after a complete run: when it returns, the
    input path exists, the extension has selected a writer, [analyze] has
    returned its records, the report at the output path is the document
    that writer makes of exactly those records, and the run was one call of
    [analyze], then one call of the writer, then the success message. *)
Theorem generate_returns_after_writing (input_path output_path : str)
        (w w' : world) (u0 : unit) :
  generate input_path output_path w = (Ok u0, w') ->
  exists wr els,
    Os.path_exists (fs w input_path) = true
    /\ ReportGenerator.get ReportGenerator.writers
         (lower unicode_lower (snd (OsPath.splitext output_path))) = Some wr
    /\ analyze input_path (fs w input_path) = Ok els
    /\ reports w' output_path = Some (writer_write wr els)
    /\ trace w'
       = trace w ++ [CallAnalyze input_path; CallWrite wr output_path;
                     CallPrint (u "Отчёт сохранён: " ++ output_path)].
Proof.
  intros H.
  destruct (generate_cases input_path output_path w)
    as [[_ E]|[[_ [_ [msg E]]]|[wr [Hex [Hget [[e [_ E]]|[els [Han E]]]]]]]];
    rewrite E in H; try discriminate.
  destruct (creatable w output_path); [|discriminate].
  inversion H. subst w'. exists wr, els. cbn [reports trace].
  repeat split; auto. now rewrite str_eqb_refl.
Qed.

(** X14. When the report cannot be created at the output path, [generate]
    does not return, whatever the input: it raises, no report file is
    written, and no success message is printed. *)
Theorem generate_needs_creatable_destination
        (input_path output_path : str) (w : world) :
  creatable w output_path = false ->
  is_ok (fst (generate input_path output_path w)) = false
  /\ reports (snd (generate input_path output_path w)) = reports w
  /\ forall text,
      In (CallPrint text) (trace (snd (generate input_path output_path w))) ->
      In (CallPrint text) (trace w).
Proof.
  intros Hcr.
  destruct (generate_cases input_path output_path w)
    as [[_ E]|[[_ [_ [msg E]]]|[wr [Hex [Hget [[e [_ E]]|[els [Han E]]]]]]]];
    rewrite E; try rewrite Hcr; cbn [fst snd is_ok reports trace log];
    repeat split; auto; intros text Hin;
    rewrite ?in_app_iff in Hin; simpl in Hin;
    intuition discriminate.
Qed.


(** X16. What [main] makes of each outcome of [generate].  When [generate]
    returns, the exit status is 0 and nothing goes to the error stream.
    When it raises [e], the exit status is 1 and the error stream gets the
    one line [Ошибка: ] followed by [str(e)]: for an input path that does
    not exist this is [Ошибка: Путь не существует: ] and the path, for an
    existing input and an extension that selects no writer it is
    [Ошибка: Неподдерживаемое расширение: ], the extension in lower case
    and the sorted list of the supported ones; in both cases nothing has
    been analysed or written. *)
Theorem main_exit_status (args_path args_report : str) (w : world) :
  (forall u0 w',
      generate args_path args_report w = (Ok u0, w') ->
      run_main args_path args_report w = (0%Z, [], w'))
  /\ (forall e w',
         generate args_path args_report w = (Raise e, w') ->
         run_main args_path args_report w
         = (1%Z, [u "Ошибка: " ++ exn_str oserror_text e], w'))
  /\ (Os.path_exists (fs w args_path) = false ->
      run_main args_path args_report w
      = (1%Z,
         [u "Ошибка: " ++ u "Путь не существует: " ++ args_path],
         w))
  /\ (Os.path_exists (fs w args_path) = true ->
      ReportGenerator.get ReportGenerator.writers
        (lower unicode_lower (snd (OsPath.splitext args_report))) = None ->
      run_main args_path args_report w
      = (1%Z,
         [u "Ошибка: "
            ++ u "Неподдерживаемое расширение: "
            ++ lower unicode_lower (snd (OsPath.splitext args_report))
            ++ u ". Поддерживаются: "
            ++ u ".csv, .docx, .json, .log, .pdf, .txt, .xlsx"],
         w)).
Proof.
  unfold main. repeat split.
  - intros u0 w' E. now rewrite E.
  - intros e w' E. now rewrite E.
  - intros Hex. unfold ReportGenerator.generate. now rewrite Hex.
  - intros Hex Hget. unfold ReportGenerator.generate.
    rewrite Hex, Hget. reflexivity.
Qed.

(** X17. Whatever its arguments and its outcome, [generate] only adds steps
    to the trace, in a fixed order: at most one call of [analyze], a call
    of a writer only after it and at most once, the success message only
    after the writer and at most once. *)
Theorem generate_steps_in_order (input_path output_path : str) (w : world) :
  exists wr,
    In (trace (snd (generate input_path output_path w)))
       [trace w;
        trace w ++ [CallAnalyze input_path];
        trace w ++ [CallAnalyze input_path; CallWrite wr output_path];
        trace w ++ [CallAnalyze input_path; CallWrite wr output_path;
                    CallPrint (u "Отчёт сохранён: " ++ output_path)]].
Proof.
  destruct (generate_cases input_path output_path w)
    as [[_ E]|[[_ [_ [msg E]]]|[wr [Hex [Hget [[e [_ E]]|[els [Han E]]]]]]]];
    rewrite E.
  - exists CSV. now left.
  - exists CSV. now left.
  - exists CSV. right. now left.
  - exists wr. destruct (creatable w output_path); cbn [snd trace].
    + right. right. right. now left.
    + right. right. now left.
Qed.

End GeneratorExtras.

(* ================================================================== *)
(** ** Examples for the further properties *)

Lemma analyze_paths_witness :
  map e_path sample_elements
  = flat_map item_paths (Os.walk false (u "root") (Some sample_tree))
  /\ length sample_elements
     = length (Os.walk false (u "root") (Some sample_tree))
       + list_sum
           (map (fun item : Os.walk_item =>
                   length (filter (fun e : str * node =>
                                     negb (Os.islink (snd e)))
                                  (snd item)))
                (Os.walk false (u "root") (Some sample_tree))).
Proof.
  apply (analyze_paths sample_strftime sample_unicode_lower
           (u "root") (Some sample_tree) sample_elements).
  vm_compute. reflexivity.
Defined.

Lemma analyze_needs_every_stat_witness :
  is_ok (FileSystemAnalyzer.analyze sample_strftime sample_unicode_lower
           (u "racy") (Some racy_tree)) = false.
Proof.
  apply (analyze_needs_every_stat sample_strftime sample_unicode_lower
           (u "racy") (Some racy_tree)).
  vm_compute. reflexivity.
Defined.

Lemma analyze_record_invariants_witness :
  exists d dn dirs files n st,
    In ((d, dn), dirs, files) (Os.walk false (u "root") (Some sample_tree))
    /\ ((n = dn /\ e_path a_txt_record = d /\ e_type a_txt_record = folder)
        \/ (exists nm, In (nm, n) files /\ Os.islink n = false
                       /\ e_path a_txt_record = OsPath.join d nm
                       /\ e_type a_txt_record <> folder))
    /\ Os.stat n = Ok st
    /\ e_name a_txt_record = OsPath.basename (e_path a_txt_record)
    /\ e_mtime a_txt_record = sample_strftime (st_mtime st)
    /\ match e_type a_txt_record with
       | file => e_size_or_type a_txt_record = Size (st_size st)
       | _ => e_size_or_type a_txt_record = Label (u "FOLDER")
       end.
Proof.
  apply (analyze_record_invariants sample_strftime sample_unicode_lower
           (u "root") (Some sample_tree) sample_elements).
  - vm_compute. reflexivity.
  - right. left. reflexivity.
Defined.

Lemma analyze_entry_names_witness :
  e_path (mk_element file (u "root/a.txt") (u "a.txt") (Size 5)
                     (u "1700000000"))
  = u "root"
  \/ (good_name
        (e_name (mk_element file (u "root/a.txt") (u "a.txt") (Size 5)
                            (u "1700000000"))) = true
      /\ exists d,
          e_path (mk_element file (u "root/a.txt") (u "a.txt") (Size 5)
                             (u "1700000000"))
          = OsPath.join d
              (e_name (mk_element file (u "root/a.txt") (u "a.txt") (Size 5)
                                  (u "1700000000")))).
Proof.
  apply (analyze_entry_names sample_strftime sample_unicode_lower
           (u "root") (Some sample_tree) sample_elements).
  - vm_compute. reflexivity.
  - vm_compute. reflexivity.
  - right. left. reflexivity.
Defined.

Lemma analyze_skips_unlistable_directories_witness :
  ~ under (OsPath.join (u "root") (u "locked"))
          (e_path (mk_element file (u "root/a.txt") (u "a.txt") (Size 5)
                              (u "1700000000"))).
Proof.
  apply (analyze_skips_unlistable_directories
           sample_strftime sample_unicode_lower
           (u "root") (Some locked_tree) locked_elements
           (u "root") locked_tree
           [(u "locked", Dir (Some sample_stat) None)]
           [(u "a.txt", File (Some sample_stat))]
           (u "locked") (Dir (Some sample_stat) None)).
  - vm_compute. reflexivity.
  - vm_compute. reflexivity.
  - left. vm_compute. reflexivity.
  - left. reflexivity.
  - vm_compute. reflexivity.
  - right. left. reflexivity.
Defined.

Lemma writers_ignore_path_and_zip_witness :
  writer_write PDF
    [mk_element zip_folder (u "root/sub/archive.ZIP") (u "archive.ZIP")
                (Label (u "FOLDER")) (u "1700000000")]
  = writer_write PDF
      [mk_element folder (u "elsewhere") (u "archive.ZIP")
                  (Label (u "FOLDER")) (u "1700000000")].
Proof.
  apply (writers_ignore_path_and_zip
           [mk_element zip_folder (u "root/sub/archive.ZIP") (u "archive.ZIP")
                       (Label (u "FOLDER")) (u "1700000000")]
           [mk_element folder (u "elsewhere") (u "archive.ZIP")
                       (Label (u "FOLDER")) (u "1700000000")]).
  constructor; [|constructor]. repeat split.
Defined.

Lemma json_and_xlsx_determine_records_witness :
  Forall2 same_rendering
    [mk_element zip_folder (u "root/sub/archive.ZIP") (u "archive.ZIP")
                (Label (u "FOLDER")) (u "1700000000")]
    [mk_element folder (u "elsewhere") (u "archive.ZIP")
                (Label (u "FOLDER")) (u "1700000000")].
Proof.
  apply (json_and_xlsx_determine_records
           [mk_element zip_folder (u "root/sub/archive.ZIP") (u "archive.ZIP")
                       (Label (u "FOLDER")) (u "1700000000")]
           [mk_element folder (u "elsewhere") (u "archive.ZIP")
                       (Label (u "FOLDER")) (u "1700000000")]).
  left. vm_compute. reflexivity.
Defined.

Lemma generate_returns_after_writing_witness :
  exists wr els,
    Os.path_exists (fs sample_world (u "root")) = true
    /\ ReportGenerator.get ReportGenerator.writers
         (lower sample_unicode_lower (snd (OsPath.splitext (u "report.CSV"))))
       = Some wr
    /\ FileSystemAnalyzer.analyze sample_strftime sample_unicode_lower
         (u "root") (fs sample_world (u "root")) = Ok els
    /\ reports
         (snd (ReportGenerator.generate sample_strftime sample_unicode_lower
                 (u "root") (u "report.CSV") sample_world))
         (u "report.CSV")
       = Some (writer_write wr els)
    /\ trace
         (snd (ReportGenerator.generate sample_strftime sample_unicode_lower
                 (u "root") (u "report.CSV") sample_world))
       = trace sample_world
           ++ [CallAnalyze (u "root"); CallWrite wr (u "report.CSV");
               CallPrint (u "Отчёт сохранён: " ++ u "report.CSV")].
Proof.
  apply (generate_returns_after_writing sample_strftime sample_unicode_lower
           (u "root") (u "report.CSV") sample_world
           (snd (ReportGenerator.generate
                   sample_strftime sample_unicode_lower
                   (u "root") (u "report.CSV") sample_world))
           tt).
  vm_compute. reflexivity.
Defined.

Lemma generate_needs_creatable_destination_witness :
  is_ok (fst (ReportGenerator.generate sample_strftime sample_unicode_lower
                (u "root") (u "report.json") readonly_world)) = false
  /\ reports
       (snd (ReportGenerator.generate sample_strftime sample_unicode_lower
               (u "root") (u "report.json") readonly_world))
     = reports readonly_world
  /\ forall text,
      In (CallPrint text)
         (trace (snd (ReportGenerator.generate
                        sample_strftime sample_unicode_lower
                        (u "root") (u "report.json") readonly_world))) ->
      In (CallPrint text) (trace readonly_world).
Proof.
  apply (generate_needs_creatable_destination
           sample_strftime sample_unicode_lower
           (u "root") (u "report.json") readonly_world).
  reflexivity.
Defined.


Lemma main_exit_status_witness :
  main sample_strftime sample_unicode_lower (u "[Errno 2]")
       (u "/does/not/exist") (u "r.csv") sample_world
  = (1%Z,
     [u "Ошибка: " ++ u "Путь не существует: " ++ u "/does/not/exist"],
     sample_world).
Proof.
  apply (proj1 (proj2 (proj2
           (main_exit_status sample_strftime sample_unicode_lower
              (u "[Errno 2]") (u "/does/not/exist") (u "r.csv")
              sample_world)))).
  vm_compute. reflexivity.
Defined.
